(** * telegram_media_sync.py: the synchronisation engine [download_media]

    A shallow embedding of [download_media] (lines 69-124 of
    telegram_media_sync.py) and of the Python text-file operations it uses.

    - Python [int] is [Z]; the in-memory [set] of message IDs is a [gset Z];
      the list [existing_files] is a [list string].
    - Text is modelled over the ASCII characters, on which [str.isdigit] is
      ['0'..'9'] and [str.isspace] is the codes 9-13, 28-31 and 32; the
      theorems on the loading of the ledger say so where it matters.
    - The append handle [record_fp] is a record with the text already handed
      to the file, the text still in the handle's buffer and a closed flag.
    - The Telegram client is external: [client.download_media] is an oracle
      that answers each call with a path, [None], a [FloodWaitError], another
      [Exception], or an exception that is no [Exception] (a cancellation, a
      keyboard interrupt).
    - Every effect of the loop ([print], [write], [asyncio.sleep], the fetch,
      [close]) is recorded, in order, in a trace of events.
    - An exception that leaves [download_media] is the result [Raised]. *)

From Stdlib Require Import ZArith String Ascii List Bool Lia.
From Stdlib Require Import DecimalString DecimalZ.
From stdpp Require Import base decidable gmap strings list.

Import ListNotations.
Local Open Scope Z_scope.
Local Open Scope string_scope.

(** ** Python string operations *)

Module Py.

(** [str(n)] / [f"{n}"] for an [int]. *)
Definition str (n : Z) : string := NilZero.string_of_int (Z.to_int n).

(** [c.isspace()] on an ASCII character. *)
Definition isspace (c : ascii) : bool :=
  let n := nat_of_ascii c in
  ((9 <=? n) && (n <=? 13) || (28 <=? n) && (n <=? 32))%nat.

(** [c.isdigit()] on an ASCII character. *)
Definition isdigit_char (c : ascii) : bool :=
  let n := nat_of_ascii c in ((48 <=? n) && (n <=? 57))%nat.

Fixpoint lstrip (s : string) : string :=
  match s with
  | String c s' => if isspace c then lstrip s' else s
  | EmptyString => EmptyString
  end.

(** [rstrip]: a character is dropped when it is white space and everything
    after it has been dropped. *)
Fixpoint rstrip (s : string) : string :=
  match s with
  | EmptyString => EmptyString
  | String c s' =>
      match rstrip s' with
      | EmptyString => if isspace c then EmptyString else String c EmptyString
      | r => String c r
      end
  end.

(** [s.strip()] *)
Definition strip (s : string) : string := rstrip (lstrip s).

Fixpoint all_digits (s : string) : bool :=
  match s with
  | EmptyString => true
  | String c s' => isdigit_char c && all_digits s'
  end.

(** [s.isdigit()]: at least one character, all of them digits. *)
Definition isdigit (s : string) : bool :=
  match s with
  | EmptyString => false
  | _ => all_digits s
  end.

Definition digit_value (c : ascii) : Z := Z.of_nat (nat_of_ascii c) - 48.

Fixpoint int_digits (acc : Z) (s : string) : Z :=
  match s with
  | EmptyString => acc
  | String c s' => int_digits (10 * acc + digit_value c) s'
  end.

(** [int(s)] for a string on which [isdigit] holds. *)
Definition int (s : string) : Z := int_digits 0 s.

Definition LF : ascii := ascii_of_nat 10.
Definition CR : ascii := ascii_of_nat 13.

(** Iterating a file opened with [open(name, 'r')]: universal newlines; a
    line ends at "\n", "\r" or "\r\n", is yielded with the terminator
    translated to "\n", and a last line without terminator is yielded as it
    is. [cur] is the line read so far. *)
Fixpoint readlines_from (cur : string) (s : string) : list string :=
  match s with
  | EmptyString =>
      match cur with EmptyString => [] | _ => [cur] end
  | String c rest =>
      if Ascii.eqb c LF then
        (cur ++ String LF EmptyString) :: readlines_from EmptyString rest
      else if Ascii.eqb c CR then
        match rest with
        | String c' rest' =>
            if Ascii.eqb c' LF then
              (cur ++ String LF EmptyString) :: readlines_from EmptyString rest'
            else (cur ++ String LF EmptyString) :: readlines_from EmptyString rest
        | EmptyString => [cur ++ String LF EmptyString]
        end
      else readlines_from (cur ++ String c EmptyString) rest
  end.

Definition readlines (s : string) : list string := readlines_from EmptyString s.

(** [os.path.basename(p)] on POSIX: what follows the last "/". *)
Fixpoint basename_from (cur : string) (p : string) : string :=
  match p with
  | EmptyString => cur
  | String c p' =>
      if Ascii.eqb c "/"%char then basename_from EmptyString p'
      else basename_from (cur ++ String c EmptyString) p'
  end.

Definition basename (p : string) : string := basename_from EmptyString p.

(** [f.startswith(p)] *)
Definition startswith (f p : string) : bool := String.prefix p f.

End Py.

(** ** The channel directory and the external collaborators *)

(** Name of the ledger file inside the channel directory (line 77). *)
Definition RECORD_NAME : string := ".downloaded_ids.txt".

(** What [download_media] finds on disk: the destination root, the resolved
    channel, the content of the ledger file when there is one, and the names
    of the other entries of the channel directory. *)
Record disk := {
  output_dir : string;
  channel_id : Z;
  record_file : option string;
  artifacts : list string
}.

(** [os.path.join(output_dir, str(channel_id))] on POSIX. *)
Fixpoint ends_with_slash (s : string) : bool :=
  match s with
  | EmptyString => false
  | String c EmptyString => Ascii.eqb c "/"%char
  | String _ s' => ends_with_slash s'
  end.

Definition channel_dir (d : disk) : string :=
  match output_dir d with
  | EmptyString => Py.str (channel_id d)
  | o => if ends_with_slash o then o ++ Py.str (channel_id d)
         else o ++ "/" ++ Py.str (channel_id d)
  end.

(** [os.listdir(channel_dir)], taken before the ledger is opened for append:
    the ledger file is listed only when it exists already. *)
Definition listdir (d : disk) : list string :=
  artifacts d ++ match record_file d with Some _ => [RECORD_NAME] | None => [] end.

Record message := { id : Z; media : bool }.

(** [client.iter_messages(entity, limit=limit)]: the history in the source's
    order, cut to [limit] messages when a limit is given. *)
Definition iter_messages (history : list message) (limit : option Z) : list message :=
  match limit with
  | None => history
  | Some n => firstn (Z.to_nat n) history
  end.

Inductive exn :=
| FloodWaitError (seconds : nat)
| OtherException (text : string)   (* any other [Exception] *)
| NonException (name : string).    (* [asyncio.CancelledError], [KeyboardInterrupt],
                                      [SystemExit]: not caught by [except Exception] *)

(** One call of [client.download_media(message, file=channel_dir)]: it
    returns a path or [None], or raises. *)
Inductive fetched :=
| Path (p : option string)
| Raise (e : exn).

(** The Media Fetcher: its answer to the call number [n] of a run (counted
    from 0), made for message [m]. *)
Definition fetcher : Type := nat -> message -> fetched.

(** ** The append handle [record_fp] *)

Record handle := {
  fp_file : string;      (* the text in the file *)
  fp_pending : string;   (* written, still in the handle's buffer *)
  fp_closed : bool
}.

(** [open(record_file, 'a')]: the file is created empty when absent. *)
Definition open_append (f : option string) : handle :=
  {| fp_file := match f with Some s => s | None => EmptyString end;
     fp_pending := EmptyString;
     fp_closed := false |}.

(** [fp.write(s)] with the default buffering of a text file: when the
    buffered text and [s] together exceed [buffer_size] characters, the
    buffered text is handed to the file first; then [s] joins the buffer,
    and the buffer is handed to the file when it holds [buffer_size]
    characters or more. *)
Definition fp_write (buffer_size : nat) (h : handle) (s : string) : handle :=
  let early := (buffer_size <? String.length (fp_pending h) + String.length s)%nat in
  let file := if early then fp_file h ++ fp_pending h else fp_file h in
  let p := if early then s else fp_pending h ++ s in
  if (buffer_size <=? String.length p)%nat
  then {| fp_file := file ++ p; fp_pending := EmptyString; fp_closed := fp_closed h |}
  else {| fp_file := file; fp_pending := p; fp_closed := fp_closed h |}.

(** [fp.close()]: the buffer is flushed and the handle released. *)
Definition fp_close (h : handle) : handle :=
  {| fp_file := fp_file h ++ fp_pending h; fp_pending := EmptyString; fp_closed := true |}.

(** ** The Dedup Ledger and the Filesystem Probe *)

(** Lines 78-81:
    [{int(line.strip()) for line in rf if line.strip().isdigit()}], the empty
    set when the file does not exist. *)
Definition load_ids (f : option string) : gset Z :=
  match f with
  | None => ∅
  | Some content =>
      list_to_set
        (map (fun line => Py.int (Py.strip line))
             (List.filter (fun line => Py.isdigit (Py.strip line)) (Py.readlines content)))
  end.

(** Line 98:
    [any(f.startswith(f"{message.id}.") or f == str(message.id) for f in existing_files)] *)
Definition file_exists (msg_id : Z) (existing_files : list string) : bool :=
  existsb (fun f => Py.startswith f (Py.str msg_id ++ ".") || String.eqb f (Py.str msg_id))
          existing_files.

(** ** The engine state and its effects *)

Inductive event :=
| EPrint (line : string)
| EFetch (msg_id : Z)
| ESleep (seconds : nat)
| EWrite (text : string)
| EClose.

(** The local variables of [download_media] that the loop updates, and the
    trace of the effects so far. *)
Record state := {
  downloaded_ids : gset Z;
  existing_files : list string;
  record_fp : handle;
  count : Z;
  trace : list event
}.

(** How a run, or the processing of one message, ends: normally, or with an
    exception on its way out of [download_media]. *)
Inductive result :=
| Returned (st : state)
| Raised (e : exn) (st : state).

Definition result_state (r : result) : state :=
  match r with Returned st => st | Raised _ st => st end.

Definition emit (e : event) (st : state) : state :=
  {| downloaded_ids := downloaded_ids st; existing_files := existing_files st;
     record_fp := record_fp st; count := count st; trace := trace st ++ [e] |}.

Definition print (line : string) (st : state) : state := emit (EPrint line) st.

Definition sleep (seconds : nat) (st : state) : state := emit (ESleep seconds) st.

(** [downloaded_ids.add(n)] *)
Definition ids_add (n : Z) (st : state) : state :=
  {| downloaded_ids := {[n]} ∪ downloaded_ids st; existing_files := existing_files st;
     record_fp := record_fp st; count := count st; trace := trace st |}.

(** [existing_files.append(f)] *)
Definition files_append (f : string) (st : state) : state :=
  {| downloaded_ids := downloaded_ids st; existing_files := existing_files st ++ [f];
     record_fp := record_fp st; count := count st; trace := trace st |}.

(** [count += 1] *)
Definition count_incr (st : state) : state :=
  {| downloaded_ids := downloaded_ids st; existing_files := existing_files st;
     record_fp := record_fp st; count := count st + 1; trace := trace st |}.

(** The message IDs of the fetch calls of a trace, in order. *)
Fixpoint fetches (tr : list event) : list Z :=
  match tr with
  | [] => []
  | EFetch n :: tr' => n :: fetches tr'
  | _ :: tr' => fetches tr'
  end.

(** The texts written to the ledger handle in a trace, in order. *)
Fixpoint written (tr : list event) : list string :=
  match tr with
  | [] => []
  | EWrite s :: tr' => s :: written tr'
  | _ :: tr' => written tr'
  end.

(** The lines printed in a trace, in order. *)
Fixpoint printed (tr : list event) : list string :=
  match tr with
  | [] => []
  | EPrint s :: tr' => s :: printed tr'
  | _ :: tr' => printed tr'
  end.

(** Number of fetch calls made so far in the run. *)
Definition fetch_calls (st : state) : nat := List.length (fetches (trace st)).

(** [f"{path}"] for a path or [None]. *)
Definition show_path (p : option string) : string :=
  match p with Some s => s | None => "None" end.

(** The text of the [TypeError] of [os.path.basename(None)]. *)
Definition BASENAME_NONE : string :=
  "expected str, bytes or os.PathLike object, not NoneType".

Section Engine.

Variable buffer_size : nat.
Variable client : fetcher.

(** [record_fp.write(f"{message.id}")] (lines 102, 108 and 118). *)
Definition write_id (n : Z) (st : state) : state :=
  emit (EWrite (Py.str n))
    {| downloaded_ids := downloaded_ids st; existing_files := existing_files st;
       record_fp := fp_write buffer_size (record_fp st) (Py.str n);
       count := count st; trace := trace st |}.

(** [await client.download_media(message, file=channel_dir)] *)
Definition call_download (m : message) (st : state) : fetched * state :=
  (client (fetch_calls st) m, emit (EFetch (id m)) st).

(** Lines 106-109: the download returned [path] at the first attempt. *)
Definition saved (m : message) (path : option string) (st : state) : state :=
  let st := count_incr st in
  let st := print ("[" ++ Py.str (count st) ++ "] Saved: " ++ show_path path) st in
  let st := write_id (id m) st in
  ids_add (id m) st.

(** Lines 116-119: the download returned [path] at the retry. *)
Definition saved_after_wait (m : message) (path : option string) (st : state) : state :=
  let st := count_incr st in
  let st := print ("[" ++ Py.str (count st) ++ "] Saved after wait: " ++ show_path path) st in
  let st := write_id (id m) st in
  ids_add (id m) st.

(** The body of the loop (lines 90-122) for one message. *)
Definition process_message (m : message) (st : state) : result :=
  if negb (media m) then Returned st
  else if bool_decide (id m ∈ downloaded_ids st) then
    Returned (print ("[SKIP] Message " ++ Py.str (id m) ++ " already downloaded (recorded).") st)
  else if file_exists (id m) (existing_files st) then
    let st := print ("[SKIP] File for message " ++ Py.str (id m) ++ " already exists.") st in
    let st := ids_add (id m) st in
    Returned (write_id (id m) st)
  else
    let '(r, st) := call_download m st in
    match r with
    | Path path =>
        let st := saved m path st in
        match path with
        | Some p => Returned (files_append (Py.basename p) st)
        | None =>
            (* os.path.basename(None) raises inside the try: caught at line 121 *)
            Returned (print ("Error downloading message " ++ Py.str (id m) ++ ": "
                             ++ BASENAME_NONE) st)
        end
    | Raise (FloodWaitError seconds) =>
        let st := print ("Rate limit reached, waiting " ++ Py.str (Z.of_nat seconds)
                         ++ " seconds...") st in
        let st := sleep seconds st in
        let '(r, st) := call_download m st in
        (* an exception raised in this handler is not caught by line 121 *)
        match r with
        | Path path =>
            let st := saved_after_wait m path st in
            match path with
            | Some p => Returned (files_append (Py.basename p) st)
            | None => Raised (OtherException BASENAME_NONE) st
            end
        | Raise e => Raised e st
        end
    | Raise (OtherException text) =>
        Returned (print ("Error downloading message " ++ Py.str (id m) ++ ": " ++ text) st)
    | Raise (NonException name) =>
        (* not an [Exception]: neither handler of the try catches it *)
        Raised (NonException name) st
    end.

(** The [async for] loop (line 89) over the messages the source yields. *)
Fixpoint iterate (ms : list message) (st : state) : result :=
  match ms with
  | [] => Returned st
  | m :: ms' =>
      match process_message m st with
      | Returned st' => iterate ms' st'
      | Raised e st' => Raised e st'
      end
  end.

(** Lines 78-88: the state in which the loop starts, for a ledger on which
    line 81 raises nothing (see [load_ledger] for the load with its errors). *)
Definition initial_state (d : disk) : state :=
  print ("Starting download for channel ID " ++ Py.str (channel_id d) ++ " into "
         ++ channel_dir d ++ "...")
    {| downloaded_ids := load_ids (record_file d);
       existing_files := listdir d;
       record_fp := open_append (record_file d);
       count := 0;
       trace := [] |}.

(** Lines 123-124. *)
Definition finish (st : state) : state :=
  let st := emit EClose
    {| downloaded_ids := downloaded_ids st; existing_files := existing_files st;
       record_fp := fp_close (record_fp st); count := count st; trace := trace st |} in
  print ("Done. Total new files downloaded: " ++ Py.str (count st)) st.

(** [download_media], from the loading of the ledger on (the entity has been
    resolved and the channel directory exists). *)
Definition download_media (d : disk) (history : list message) (limit : option Z) : result :=
  match iterate (iter_messages history limit) (initial_state d) with
  | Returned st => Returned (finish st)
  | Raised e st => Raised e st
  end.

(** The channel directory after a run: the ledger file exists and holds what
    the handle passed to it, and what was still in its buffer, which the
    interpreter writes out when it finalises a handle left open; the Fetcher
    has stored each artifact in the channel directory under the base name of
    the path it returned. *)
Definition disk_after (d : disk) (r : result) : disk :=
  {| output_dir := output_dir d;
     channel_id := channel_id d;
     record_file := Some (fp_file (record_fp (result_state r))
                          ++ fp_pending (record_fp (result_state r)))%string;
     artifacts := artifacts d
                  ++ skipn (List.length (listdir d)) (existing_files (result_state r)) |}.

End Engine.

(** The buffer size of Python's [io] module (io.DEFAULT_BUFFER_SIZE). *)
Definition DEFAULT_BUFFER_SIZE : nat := Z.to_nat 8192.

(** The text the handle holds: in the file or still in its buffer. *)
Definition handle_text (h : handle) : string := (fp_file h ++ fp_pending h)%string.

(** [''.join(ws)] *)
Definition join (ws : list string) : string := fold_right String.append EmptyString ws.

(** Every text written to the handle is the decimal text of an ID of the
    set, and no text is written twice. *)
Definition writes_settled (st : state) : Prop :=
  List.NoDup (written (trace st))
  /\ forall s, In s (written (trace st)) ->
       exists n, s = Py.str n /\ n ∈ downloaded_ids st.

(** Two runs in succession on the same history: the second run starts from
    the directory the first one leaves. *)
Definition second_run (buffer_size : nat) (client1 client2 : fetcher) (d : disk)
    (history : list message) (limit : option Z) : result :=
  download_media buffer_size client2
    (disk_after d (download_media buffer_size client1 d history limit)) history limit.

(** Between two states of a run, the handle gains the texts written in
    between, in order, and loses nothing. *)
Definition handle_follows (a b : state) : Prop :=
  exists ws, written (trace b) = (written (trace a) ++ ws)%list
             /\ handle_text (record_fp b) = (handle_text (record_fp a) ++ join ws)%string.

(** A ledger file is malformed, in the words of the specification, when one
    of its lines is neither blank nor a number. *)
Definition malformed (content : string) : bool :=
  existsb (fun line => negb (Py.isdigit (Py.strip line))
                       && negb (String.eqb (Py.strip line) EmptyString))
          (Py.readlines content).

(** The ledger file with one ID per line, each ended by a line break. *)
Definition ledger_of (ids : list Z) : string :=
  join (map (fun n => (Py.str n ++ String Py.LF EmptyString)%string) ids).

(** A message ID is covered in a state when it is in the set or the snapshot
    has a file for it: lines 94-103 then skip the message. *)
Definition covered (n : Z) (st : state) : Prop :=
  n ∈ downloaded_ids st \/ file_exists n (existing_files st) = true.

(** The durability contract in the words of the specification: whenever the
    engine is about to proceed to the next message, nothing written is left
    in the buffer of the handle. *)
Definition flushed_before_next_message (buffer_size : nat) : Prop :=
  forall (client : fetcher) (d : disk) (ms : list message) (st : state),
    iterate buffer_size client ms (initial_state d) = Returned st ->
    fp_pending (record_fp st) = EmptyString.

(** ** Scenarios *)

Module Scenario.

Definition with_media (n : Z) : message := {| id := n; media := true |}.
Definition without_media (n : Z) : message := {| id := n; media := false |}.

(** The channel of the specification's scenario, newest message first. *)
Definition history : list message := [with_media 3; with_media 2; without_media 1].

(** An empty channel directory without ledger. *)
Definition fresh : disk :=
  {| output_dir := "downloads"; channel_id := 1001; record_file := None; artifacts := [] |}.

(** A Fetcher that always succeeds and names the artifact after the message ID. *)
Definition fetch_by_id : fetcher :=
  fun _ m => Path (Some ("downloads/1001/" ++ Py.str (id m) ++ ".jpg")).

(** A Fetcher that always succeeds and names the artifact after the date of
    the photo, as Telethon does when [file] is a directory. *)
Definition fetch_by_date : fetcher :=
  fun _ m => Path (Some ("downloads/1001/photo_2024-05-0" ++ Py.str (id m) ++ "_10-00-00.jpg")).

(** A Fetcher that is rate limited at the first call and fails at the retry. *)
Definition fetch_flood_then_error : fetcher :=
  fun n _ =>
    match n with
    | O => Raise (FloodWaitError 5)
    | _ => Raise (OtherException "Connection reset by peer")
    end.

(** A Fetcher that is rate limited at the first call and succeeds afterwards. *)
Definition fetch_flood_once : fetcher :=
  fun n m =>
    match n with
    | O => Raise (FloodWaitError 2)
    | _ => Path (Some ("downloads/1001/" ++ Py.str (id m) ++ ".jpg"))
    end.

(** A Fetcher whose every call fails with an error other than a rate limit. *)
Definition fetch_error : fetcher :=
  fun _ _ => Raise (OtherException "Connection reset by peer").

(** The directory the first run of the scenario leaves, with the artifacts
    moved elsewhere and the ledger kept. *)
Definition artifacts_moved : disk :=
  {| output_dir := "downloads"; channel_id := 1001;
     record_file := record_file (disk_after fresh
                      (download_media DEFAULT_BUFFER_SIZE fetch_by_id fresh history None));
     artifacts := [] |}.

(** A ledger file whose second line is no number. *)
Definition ledger_with_junk : string :=
  "12" ++ String Py.LF ("abc" ++ String Py.LF EmptyString).

(** The channel directory with the artifact of message 3 and no ledger. *)
Definition artifact_only : disk :=
  {| output_dir := "downloads"; channel_id := 1001; record_file := None;
     artifacts := ["3.jpg"] |}.

End Scenario.

(** ** Interactive selection: [choose_dialog_sync] (lines 43-67) *)

(** A Python value held by an attribute of a Telethon entity: [None] or a
    string. An attribute the entity does not have is [None] of the option. *)
Inductive value :=
| VNone
| VStr (s : string).

Record entity := {
  entity_id : Z;
  title : option value;
  username : option value;
  first_name : option value
}.

(** [getattr(entity, name, default)] *)
Definition getattr (a : option value) (default : value) : value :=
  match a with Some v => v | None => default end.

(** Truth value of [None] and of a string. *)
Definition truthy (v : value) : bool :=
  match v with
  | VStr (String _ _) => true
  | _ => false
  end.

(** [x or y] *)
Definition py_or (x y : value) : value := if truthy x then x else y.

(** [f"{v}"] *)
Definition show_value (v : value) : string :=
  match v with VNone => "None" | VStr s => s end.

(** Line 57:
    [getattr(entity, 'title', None) or getattr(entity, 'username', None)
     or getattr(entity, 'first_name', '')] *)
Definition display_name (e : entity) : value :=
  py_or (py_or (getattr (title e) VNone) (getattr (username e) VNone))
        (getattr (first_name e) (VStr EmptyString)).

(** Line 58: [f"{name} ({entity.id})"] *)
Definition label (e : entity) : string :=
  (show_value (display_name e) ++ " (" ++ Py.str (entity_id e) ++ ")")%string.

(** [choices.index(choice)]: the first position of [choice], [None] for the
    [ValueError] of a missing element. *)
Fixpoint index (choice : string) (choices : list string) : option nat :=
  match choices with
  | [] => None
  | c :: cs =>
      if String.eqb c choice then Some O
      else match index choice cs with Some i => Some (S i) | None => None end
  end.

Inductive selection :=
| Cancelled                (* [return None] *)
| Selected (e : entity)
| ValueError.              (* raised by [choices.index] *)

(** Lines 54-67, after the dialogs have been fetched: [dialogs] are the
    entities of [client.get_dialogs()], [answer] is what
    [questionary.select(...).ask()] returns. *)
Definition choose_dialog_sync (dialogs : list entity) (answer : option string) : selection :=
  let choices := map label dialogs in
  match answer with
  | None => Cancelled
  | Some choice =>
      match index choice choices with
      | None => ValueError
      | Some idx =>
          match nth_error dialogs idx with
          | Some e => Selected e
          | None => ValueError
          end
      end
  end.

(** ** The command line (lines 137-166) and [main] (lines 126-135) *)

Record arguments := {
  arg_channel : option string;   (* --channel *)
  arg_list_chats : bool;         (* --list-chats *)
  arg_limit : option Z           (* --limit *)
}.

(** [not args.channel] *)
Definition no_channel (a : arguments) : bool :=
  match arg_channel a with
  | Some (String _ _) => false
  | _ => true
  end.

Inductive target :=
| ByName (name : option string)
| ByEntity (e : entity).

(** How the script goes on after the arguments have been read. *)
Inductive startup :=
| UsageError                       (* [parser.error]: exit status 2 *)
| OperationCancelled               (* prints "Operation cancelled.", [exit(1)] *)
| SelectionError                   (* the [ValueError] of the selection *)
| Start (t : target) (limit : option Z).  (* [asyncio.run(main(...))] *)

(** Lines 148-166. The dialogs and the answer are consulted only with
    [--list-chats]. *)
Definition dispatch (a : arguments) (dialogs : list entity) (answer : option string) : startup :=
  if no_channel a && negb (arg_list_chats a) then UsageError
  else if arg_list_chats a then
    match choose_dialog_sync dialogs answer with
    | Cancelled => OperationCancelled
    | Selected e => Start (ByEntity e) (arg_limit a)
    | ValueError => SelectionError
    end
  else Start (ByName (arg_channel a)) (arg_limit a).

(** What [main] does around the run, in order. *)
Inductive session_event :=
| Started                        (* [await client.start()] *)
| LoggedIn (line : string)       (* the "Logged in as" line *)
| Ran (r : result)               (* [await download_media(...)] *)
| Disconnected.                  (* [await client.disconnect()] *)

(** Line 131: [getattr(me, 'first_name', None) or getattr(me, 'username', '')] *)
Definition logged_in_line (me : entity) : string :=
  ("Logged in as: "
   ++ show_value (py_or (getattr (first_name me) VNone)
                        (getattr (username me) (VStr EmptyString))))%string.

(** [main], for a target that resolves to the channel directory [d]: the
    events, and the exception that leaves [main] if there is one. *)
Definition main (buffer_size : nat) (client : fetcher) (me : entity) (d : disk)
    (history : list message) (limit : option Z) : list session_event * option exn :=
  let r := download_media buffer_size client d history limit in
  match r with
  | Returned _ => ([Started; LoggedIn (logged_in_line me); Ran r; Disconnected], None)
  | Raised e _ => ([Started; LoggedIn (logged_in_line me); Ran r], Some e)
  end.

(** ** Auxiliary notions for the properties of the engine *)

(** The character [c] occurs in [s]. *)
Fixpoint occurs (c : ascii) (s : string) : bool :=
  match s with
  | EmptyString => false
  | String c' s' => Ascii.eqb c' c || occurs c s'
  end.

(** ** The loading of the ledger with the errors of [int] *)

(** The largest number of digits [int()] converts
    (sys.int_info.default_max_str_digits). *)
Definition INT_MAX_STR_DIGITS : nat := Z.to_nat 4300.

(** [int(s)] for a string of ASCII digits: [None] is the [ValueError] of a
    string with more digits than the limit. *)
Definition int_checked (s : string) : option Z :=
  if (INT_MAX_STR_DIGITS <? String.length s)%nat then None else Some (Py.int s).

(** The set comprehension of line 81 over the lines of the file: [None] when
    [int] raises on a line that [isdigit] lets through. *)
Fixpoint collect_ids (lines : list string) : option (gset Z) :=
  match lines with
  | [] => Some ∅
  | line :: rest =>
      if Py.isdigit (Py.strip line) then
        match int_checked (Py.strip line) with
        | None => None
        | Some n =>
            match collect_ids rest with
            | Some ids => Some ({[n]} ∪ ids)
            | None => None
            end
        end
      else collect_ids rest
  end.

(** Lines 78-81 as they run: the loaded set, or [None] when the [ValueError]
    of [int] leaves [download_media], which happens before the ledger is
    opened for append. [load_ids] is the set when nothing is raised. *)
Definition load_ledger (f : option string) : option (gset Z) :=
  match f with
  | None => Some ∅
  | Some content => collect_ids (Py.readlines content)
  end.

(** The text holds ASCII characters only. *)
Fixpoint is_ascii (s : string) : bool :=
  match s with
  | EmptyString => true
  | String c s' => (nat_of_ascii c <? 128)%nat && is_ascii s'
  end.

(** No line that [isdigit] lets through has more digits than [int] converts. *)
Definition digit_lines_short (content : string) : Prop :=
  forall line, In line (Py.readlines content) ->
    Py.isdigit (Py.strip line) = true ->
    (String.length (Py.strip line) <= INT_MAX_STR_DIGITS)%nat.

(** The two promises of the specification on a ledger that is not in order,
    in its words: the load never fails the run, and a malformed file yields
    the empty set. *)
Definition load_never_fails : Prop :=
  forall f, load_ledger f <> None.

Definition malformed_loads_empty : Prop :=
  forall content, malformed content = true -> load_ledger (Some content) = Some ∅.

(** [n] copies of the character [c]. *)
Fixpoint replicate_char (n : nat) (c : ascii) : string :=
  match n with
  | O => EmptyString
  | S n' => String c (replicate_char n' c)
  end.

(** Inputs for the examples of the additional properties. *)
Module Inputs.



(** A ledger file of one line of 4301 digits. *)
Definition long_line : string := replicate_char (Z.to_nat 4301) "9".


Definition channel_a : entity :=
  {| entity_id := 10; title := Some (VStr "News"); username := Some (VStr "news");
     first_name := None |}.
Definition user_b : entity :=
  {| entity_id := 20; title := None; username := Some VNone;
     first_name := Some (VStr "Ann") |}.

End Inputs.

(** * Properties *)

Local Open Scope list_scope.

(** ** Decimal text of integers *)

Lemma to_int_not_nil (n : Z) :
  Z.to_int n <> Decimal.Pos Decimal.Nil /\ Z.to_int n <> Decimal.Neg Decimal.Nil.
Proof.
  destruct n as [|p|p]; simpl; split; try discriminate;
    intros H; injection H as H; exact (DecimalPos.Unsigned.to_uint_nonnil p H).
Qed.

Lemma str_inj (n n' : Z) : Py.str n = Py.str n' -> n = n'.
Proof.
  unfold Py.str. intros H.
  apply (f_equal NilZero.int_of_string) in H.
  destruct (to_int_not_nil n) as [Hp Hn], (to_int_not_nil n') as [Hp' Hn'].
  rewrite !NilZero.isi in H by assumption.
  injection H as H. now apply DecimalZ.to_int_inj.
Qed.

(** ** Text *)

Lemma append_nil_r (s : string) : (s ++ EmptyString)%string = s.
Proof.
  induction s as [|c s IH]; [reflexivity|].
  change (String c (s ++ EmptyString)%string = String c s). now rewrite IH.
Qed.

Lemma append_assoc (s t u : string) : ((s ++ t) ++ u)%string = (s ++ (t ++ u))%string.
Proof.
  induction s as [|c s IH]; [reflexivity|].
  change (String c ((s ++ t) ++ u)%string = String c (s ++ (t ++ u))%string).
  now rewrite IH.
Qed.

Lemma join_app (ws vs : list string) : join (ws ++ vs) = (join ws ++ join vs)%string.
Proof.
  induction ws as [|w ws IH]; [reflexivity|].
  change (join ((w :: ws) ++ vs)) with (w ++ join (ws ++ vs))%string.
  change (join (w :: ws)) with (w ++ join ws)%string.
  now rewrite IH, append_assoc.
Qed.

Lemma handle_text_write (buffer_size : nat) (h : handle) (s : string) :
  handle_text (fp_write buffer_size h s) = (handle_text h ++ s)%string.
Proof.
  unfold fp_write, handle_text.
  destruct (buffer_size <? String.length (fp_pending h) + String.length s)%nat;
    match goal with |- context [(?a <=? ?b)%nat] => destruct (a <=? b)%nat end;
    cbn [fp_file fp_pending];
    rewrite ?append_nil_r, ?append_assoc; reflexivity.
Qed.

(** ** Sets of IDs *)

Lemma elem_of_add (n k : Z) (s : gset Z) : n ∈ {[k]} ∪ s <-> n = k \/ n ∈ s.
Proof. rewrite elem_of_union, elem_of_singleton. reflexivity. Qed.

(** ** Fields of the state after each update *)

Lemma emit_ids (e : event) (st : state) :
  downloaded_ids (emit e st) = downloaded_ids st.
Proof. reflexivity. Qed.

Lemma emit_files (e : event) (st : state) :
  existing_files (emit e st) = existing_files st.
Proof. reflexivity. Qed.

Lemma emit_fp (e : event) (st : state) :
  record_fp (emit e st) = record_fp st.
Proof. reflexivity. Qed.

Lemma emit_count (e : event) (st : state) :
  count (emit e st) = count st.
Proof. reflexivity. Qed.

Lemma emit_trace (e : event) (st : state) :
  trace (emit e st) = trace st ++ [e].
Proof. reflexivity. Qed.

Lemma ids_add_ids (n : Z) (st : state) :
  downloaded_ids (ids_add n st) = {[n]} ∪ downloaded_ids st.
Proof. reflexivity. Qed.

Lemma ids_add_files (n : Z) (st : state) :
  existing_files (ids_add n st) = existing_files st.
Proof. reflexivity. Qed.

Lemma ids_add_fp (n : Z) (st : state) :
  record_fp (ids_add n st) = record_fp st.
Proof. reflexivity. Qed.

Lemma ids_add_count (n : Z) (st : state) :
  count (ids_add n st) = count st.
Proof. reflexivity. Qed.

Lemma ids_add_trace (n : Z) (st : state) :
  trace (ids_add n st) = trace st.
Proof. reflexivity. Qed.

Lemma files_append_ids (f : string) (st : state) :
  downloaded_ids (files_append f st) = downloaded_ids st.
Proof. reflexivity. Qed.

Lemma files_append_files (f : string) (st : state) :
  existing_files (files_append f st) = existing_files st ++ [f].
Proof. reflexivity. Qed.

Lemma files_append_fp (f : string) (st : state) :
  record_fp (files_append f st) = record_fp st.
Proof. reflexivity. Qed.

Lemma files_append_count (f : string) (st : state) :
  count (files_append f st) = count st.
Proof. reflexivity. Qed.

Lemma files_append_trace (f : string) (st : state) :
  trace (files_append f st) = trace st.
Proof. reflexivity. Qed.

Lemma count_incr_ids (st : state) :
  downloaded_ids (count_incr st) = downloaded_ids st.
Proof. reflexivity. Qed.

Lemma count_incr_files (st : state) :
  existing_files (count_incr st) = existing_files st.
Proof. reflexivity. Qed.

Lemma count_incr_fp (st : state) :
  record_fp (count_incr st) = record_fp st.
Proof. reflexivity. Qed.

Lemma count_incr_count (st : state) :
  count (count_incr st) = count st + 1.
Proof. reflexivity. Qed.

Lemma count_incr_trace (st : state) :
  trace (count_incr st) = trace st.
Proof. reflexivity. Qed.

Lemma write_id_ids (buffer_size : nat) (n : Z) (st : state) :
  downloaded_ids (write_id buffer_size n st) = downloaded_ids st.
Proof. reflexivity. Qed.

Lemma write_id_files (buffer_size : nat) (n : Z) (st : state) :
  existing_files (write_id buffer_size n st) = existing_files st.
Proof. reflexivity. Qed.

Lemma write_id_fp (buffer_size : nat) (n : Z) (st : state) :
  record_fp (write_id buffer_size n st) = fp_write buffer_size (record_fp st) (Py.str n).
Proof. reflexivity. Qed.

Lemma write_id_count (buffer_size : nat) (n : Z) (st : state) :
  count (write_id buffer_size n st) = count st.
Proof. reflexivity. Qed.

Lemma write_id_trace (buffer_size : nat) (n : Z) (st : state) :
  trace (write_id buffer_size n st) = trace st ++ [EWrite (Py.str n)].
Proof. reflexivity. Qed.

Create Rewrite HintDb state.

#[global] Hint Rewrite
  emit_ids emit_files emit_fp emit_count emit_trace
  ids_add_ids ids_add_files ids_add_fp ids_add_count ids_add_trace
  files_append_ids files_append_files files_append_fp files_append_count files_append_trace
  count_incr_ids count_incr_files count_incr_fp count_incr_count count_incr_trace
  write_id_ids write_id_files write_id_fp write_id_count write_id_trace : state.

(** ** Traces *)

Lemma fetches_app (t1 t2 : list event) : fetches (t1 ++ t2) = fetches t1 ++ fetches t2.
Proof.
  induction t1 as [|e t1 IH]; simpl; [reflexivity|].
  destruct e; simpl; rewrite IH; reflexivity.
Qed.

Lemma written_app (t1 t2 : list event) : written (t1 ++ t2) = written t1 ++ written t2.
Proof.
  induction t1 as [|e t1 IH]; simpl; [reflexivity|].
  destruct e; simpl; rewrite IH; reflexivity.
Qed.

Lemma printed_app (t1 t2 : list event) : printed (t1 ++ t2) = printed t1 ++ printed t2.
Proof.
  induction t1 as [|e t1 IH]; simpl; [reflexivity|].
  destruct e; simpl; rewrite IH; reflexivity.
Qed.

(** ** One message *)

Section Step.

Variable buffer_size : nat.
Variable client : fetcher.

Abbreviation step := (process_message buffer_size client).

(** Case analysis along the branches of the loop body. *)
Ltac step_cases m st :=
  unfold process_message, call_download;
  destruct (media m); simpl;
  [ destruct (bool_decide_reflect (id m ∈ downloaded_ids st)); simpl;
    [ | destruct (file_exists (id m) (existing_files st)); simpl;
        [ | destruct (client (fetch_calls st) m) as [[p|]|[secs|text|name]]; simpl;
            [ | | match goal with
                  | |- context [client ?n m] =>
                      destruct (client n m) as [[p|]|e]; simpl
                  end | | ] ] ]
  | ].

Ltac step_simpl :=
  cbn [result_state]; unfold saved, saved_after_wait, print, sleep;
  autorewrite with state;
  rewrite ?written_app, ?fetches_app, ?printed_app;
  cbn [written fetches printed]; rewrite ?app_nil_r.

(** The snapshot of file names is only extended, by at most one name. *)
Lemma step_files (m : message) (st : state) :
  exists fs, existing_files (result_state (step m st)) = existing_files st ++ fs
             /\ (List.length fs <= 1)%nat.
Proof.
  step_cases m st; step_simpl;
    solve [ exists []; rewrite app_nil_r; split; [reflexivity | simpl; lia]
          | eexists [_]; split; [reflexivity | simpl; lia] ].
Qed.

(** The Fetcher is called at most twice, for this message only, and only
    when its ID is not in the set. *)
Lemma step_fetches (m : message) (st : state) :
  exists k, (k <= 2)%nat
    /\ fetches (trace (result_state (step m st))) = fetches (trace st) ++ repeat (id m) k
    /\ (k <> 0%nat -> (id m ∉ downloaded_ids st)
                      /\ file_exists (id m) (existing_files st) = false).
Proof.
  destruct (file_exists (id m) (existing_files st)) eqn:Hf.
  - step_cases m st; try rewrite Hf; step_simpl; exists 0%nat; simpl;
      rewrite ?app_nil_r; repeat split; (lia || congruence || (intros; exfalso; congruence) || idtac).
    all: try (intros []; reflexivity).
  - step_cases m st; try rewrite Hf; step_simpl;
      solve [ exists 0%nat; simpl; rewrite ?app_nil_r; split; [lia | split; [reflexivity | intros []; reflexivity]]
            | exists 1%nat; simpl; split; [lia | split; [reflexivity | intros _; split; [assumption | reflexivity]]]
            | exists 2%nat; simpl; rewrite <- ?app_assoc; simpl; split; [lia | split; [reflexivity | intros _; split; [assumption | reflexivity]]] ].
Qed.

(** A message either leaves the set, the handle and the counter as they
    are, or it is settled: its ID, which was not in the set, is added to the
    set and written once to the handle. *)
Lemma step_settles (m : message) (st : state) :
  let st' := result_state (step m st) in
  (downloaded_ids st' = downloaded_ids st
   /\ written (trace st') = written (trace st)
   /\ record_fp st' = record_fp st
   /\ count st' = count st)
  \/
  ((id m ∉ downloaded_ids st)
   /\ downloaded_ids st' = {[id m]} ∪ downloaded_ids st
   /\ written (trace st') = written (trace st) ++ [Py.str (id m)]
   /\ record_fp st' = fp_write buffer_size (record_fp st) (Py.str (id m))
   /\ (count st' = count st \/ count st' = count st + 1)).
Proof.
  step_cases m st; step_simpl;
    solve [ left; repeat split; reflexivity
          | right; repeat split; (assumption || reflexivity || (left; reflexivity) || (right; reflexivity)) ].
Qed.

End Step.

(** ** The loop *)

Section Loop.

Variable buffer_size : nat.
Variable client : fetcher.

Abbreviation step := (process_message buffer_size client).
Abbreviation loop := (iterate buffer_size client).

Lemma loop_app (ms1 ms2 : list message) (st : state) :
  loop (ms1 ++ ms2) st =
  match loop ms1 st with
  | Returned st' => loop ms2 st'
  | Raised e st' => Raised e st'
  end.
Proof.
  revert st. induction ms1 as [|m ms1 IH]; intros st; simpl; [reflexivity|].
  destruct (step m st); [apply IH | reflexivity].
Qed.

(** A relation between states that every message respects holds between
    the start and the end of the loop. *)
Lemma loop_rel (R : state -> state -> Prop) :
  (forall st, R st st) ->
  (forall a b c, R a b -> R b c -> R a c) ->
  (forall m st, R st (result_state (step m st))) ->
  forall ms st, R st (result_state (loop ms st)).
Proof.
  intros Hrefl Htrans Hstep ms. induction ms as [|m ms IH]; intros st; simpl.
  - apply Hrefl.
  - specialize (Hstep m st). destruct (step m st) as [st'|e st']; simpl in *.
    + eapply Htrans; [exact Hstep | apply IH].
    + exact Hstep.
Qed.

(** A property of states that every message preserves holds at the end of
    the loop. *)
Lemma loop_inv (P : state -> Prop) :
  (forall m st, P st -> P (result_state (step m st))) ->
  forall ms st, P st -> P (result_state (loop ms st)).
Proof.
  intros Hstep ms st H.
  apply (loop_rel (fun a b => P a -> P b)); auto.
Qed.

Lemma step_ids_mono (m : message) (st : state) :
  downloaded_ids st ⊆ downloaded_ids (result_state (step m st)).
Proof.
  intros n Hn.
  destruct (step_settles buffer_size client m st) as [(-> & _)|(_ & -> & _)];
    [exact Hn | apply elem_of_add; tauto].
Qed.

Lemma loop_ids_mono (ms : list message) (st : state) :
  downloaded_ids st ⊆ downloaded_ids (result_state (loop ms st)).
Proof.
  apply (loop_rel (fun a b => downloaded_ids a ⊆ downloaded_ids b)).
  - intros a n Hn. exact Hn.
  - intros a b c Hab Hbc n Hn. apply Hbc, Hab, Hn.
  - apply step_ids_mono.
Qed.

(** Only IDs of messages of the sequence join the set. *)
Lemma loop_ids_bound (ms : list message) (st : state) (n : Z) :
  n ∈ downloaded_ids (result_state (loop ms st)) ->
  n ∈ downloaded_ids st \/ In n (map id ms).
Proof.
  revert st. induction ms as [|m ms IH]; intros st; simpl; [tauto|].
  pose proof (step_settles buffer_size client m st) as Hs.
  destruct (step m st) as [st'|e st']; simpl in *; intros Hn.
  - apply IH in Hn. destruct Hn as [Hn|Hn]; [|tauto].
    destruct Hs as [(Eq & _)|(_ & Eq & _)]; rewrite Eq in Hn; [tauto|].
    apply elem_of_add in Hn. destruct Hn as [->|Hn]; tauto.
  - destruct Hs as [(Eq & _)|(_ & Eq & _)]; rewrite Eq in Hn; [tauto|].
    apply elem_of_add in Hn. destruct Hn as [->|Hn]; tauto.
Qed.

Lemma file_exists_app (n : Z) (fs gs : list string) :
  file_exists n fs = true -> file_exists n (fs ++ gs) = true.
Proof.
  unfold file_exists. rewrite existsb_app. intros ->. reflexivity.
Qed.

Lemma loop_files (ms : list message) (st : state) :
  exists fs, existing_files (result_state (loop ms st)) = existing_files st ++ fs.
Proof.
  apply (loop_rel (fun a b => exists fs, existing_files b = existing_files a ++ fs)).
  - intros a. exists []. now rewrite app_nil_r.
  - intros a b c [f1 ->] [f2 ->]. exists (f1 ++ f2). now rewrite app_assoc.
  - intros m a. destruct (step_files buffer_size client m a) as (fs & E & _). eauto.
Qed.

Lemma step_writes_settled (m : message) (st : state) :
  writes_settled st -> writes_settled (result_state (step m st)).
Proof.
  intros [Hnd Hin].
  destruct (step_settles buffer_size client m st)
    as [(Ei & Ew & _)|(Hnot & Ei & Ew & _)]; unfold writes_settled; rewrite Ei, Ew.
  - split; assumption.
  - split.
    + apply List.NoDup_app.
      * exact Hnd.
      * constructor; [intros [] | constructor].
      * intros s Hs [<-|[]]. destruct (Hin _ Hs) as (n & E & Hn).
        apply str_inj in E. subst n. contradiction.
    + intros s Hs. apply in_app_or in Hs. destruct Hs as [Hs|[<-|[]]].
      * destruct (Hin _ Hs) as (n & E & Hn). exists n.
        split; [exact E | apply elem_of_add; tauto].
      * exists (id m). split; [reflexivity | apply elem_of_add; tauto].
Qed.

Lemma loop_writes_settled (ms : list message) (st : state) :
  writes_settled st -> writes_settled (result_state (loop ms st)).
Proof. apply loop_inv. apply step_writes_settled. Qed.

End Loop.

(** ** The ledger file after a run *)

Import Scenario.

(** C1. Claim: every append of a settled ID writes the ID as one line ended
    by a line break, so the ledger file holds one settled ID per line.
    On the code: a first run over the messages 3 and 2 of the scenario,
    from an empty directory, writes the texts "3" and "2" with no line break;
    the ledger file is the single line "32", which loads as the one ID 32. *)
Theorem ledger_appends_run_together :
  let r := download_media DEFAULT_BUFFER_SIZE fetch_by_id fresh history None in
  written (trace (result_state r)) = ["3"; "2"]%string
  /\ record_file (disk_after fresh r) = Some "32"%string
  /\ Py.readlines "32" = ["32"]%string
  /\ load_ids (record_file (disk_after fresh r)) = {[ 32 ]}
  /\ (3 ∉ load_ids (record_file (disk_after fresh r)))
  /\ (2 ∉ load_ids (record_file (disk_after fresh r))).
Proof.
  repeat split; try (vm_compute; reflexivity); compute_done.
Qed.

(** C2. Claim: a second run in succession on the same history and directory
    reports 0 downloads and leaves the ledger's set of settled IDs as it was.
    On the code, in the scenario of the specification: with artifacts named
    after the message ID the second run reports 0 but appends "3" and "2"
    again, and the ledger, which loaded as {32}, now loads as {3232}; with
    artifacts named after the date the second run downloads both again. *)
Theorem second_run_changes_ledger :
  let r1 := download_media DEFAULT_BUFFER_SIZE fetch_by_id fresh history None in
  let r2 := second_run DEFAULT_BUFFER_SIZE fetch_by_id fetch_by_id fresh history None in
  let r2' := second_run DEFAULT_BUFFER_SIZE fetch_by_date fetch_by_date fresh history None in
  count (result_state r1) = 2
  /\ count (result_state r2) = 0
  /\ written (trace (result_state r2)) = ["3"; "2"]%string
  /\ load_ids (record_file (disk_after fresh r1)) = {[ 32 ]}
  /\ load_ids (record_file (disk_after (disk_after fresh r1) r2)) = {[ 3232 ]}
  /\ load_ids (record_file (disk_after fresh r1))
     <> load_ids (record_file (disk_after (disk_after fresh r1) r2))
  /\ count (result_state r2') = 2
  /\ fetches (trace (result_state r2')) = [3; 2].
Proof.
  repeat split; try (vm_compute; reflexivity).
  intros H.
  assert (H32 : 32 ∈ load_ids (record_file (disk_after fresh
            (download_media DEFAULT_BUFFER_SIZE fetch_by_id fresh history None))))
    by compute_done.
  rewrite H in H32. revert H32. compute_done.
Qed.

(** ** Failures of the Fetcher *)

(** A first fetch that fails with an error other than a rate limit is logged,
    settles nothing and lets the loop go on. *)
Lemma first_fetch_error_is_logged (buffer_size : nat) (client : fetcher)
    (m : message) (st : state) (text : string) :
  media m = true ->
  id m ∉ downloaded_ids st ->
  file_exists (id m) (existing_files st) = false ->
  client (fetch_calls st) m = Raise (OtherException text) ->
  process_message buffer_size client m st =
  Returned (print ("Error downloading message " ++ Py.str (id m) ++ ": " ++ text)
              (emit (EFetch (id m)) st)).
Proof.
  intros Hm Hid Hf Hc. unfold process_message, call_download.
  rewrite Hm, Hf, Hc. simpl.
  rewrite bool_decide_eq_false_2 by assumption. reflexivity.
Qed.

(** C3. Claim: a message whose fetch fails with an error other than a rate
    limit, or whose one retry after a rate limit fails, is logged and left
    unsettled, and the loop goes on to the next message; no such failure
    ends the run.
    On the code: with messages 3 and 2 and a Fetcher that is rate limited at
    the first call and fails at the retry, the exception of the retry leaves
    [download_media]: no "Error downloading" line is printed, message 2 is
    never looked at, and the final summary is not printed. *)
Theorem failed_retry_ends_run :
  let r := download_media DEFAULT_BUFFER_SIZE fetch_flood_then_error fresh history None in
  exists st,
    r = Raised (OtherException "Connection reset by peer") st
    /\ printed (trace st) =
       ["Starting download for channel ID 1001 into downloads/1001...";
        "Rate limit reached, waiting 5 seconds..."]%string
    /\ fetches (trace st) = [3; 3]
    /\ downloaded_ids st = ∅
    /\ written (trace st) = [].
Proof.
  eexists. repeat split; vm_compute; reflexivity.
Qed.

(** C4. Claim: the append handle opened at the start of a run is closed on
    every exit path, also when an error leaves the processing of a message.
    On the code: [record_fp.close()] is reached only when the loop ends
    normally; in the run above the exception leaves [download_media] with
    the handle open and no close in the trace. *)
Theorem handle_open_after_error :
  let r := download_media DEFAULT_BUFFER_SIZE fetch_flood_then_error fresh history None in
  (exists e st, r = Raised e st)
  /\ fp_closed (record_fp (result_state r)) = false
  /\ ~ In EClose (trace (result_state r)).
Proof.
  split; [do 2 eexists; vm_compute; reflexivity|].
  split; [vm_compute; reflexivity|].
  vm_compute. intros H.
  repeat (destruct H as [H|H]; [discriminate H|]). exact H.
Qed.

(** ** The ledger handle during and after a run *)

Section Handle.

Variable buffer_size : nat.
Variable client : fetcher.

Lemma loop_handle (ms : list message) (st : state) :
  handle_follows st (result_state (iterate buffer_size client ms st)).
Proof.
  apply loop_rel.
  - intros a. exists []. now rewrite app_nil_r, append_nil_r.
  - intros a b c (w1 & E1 & T1) (w2 & E2 & T2). exists (w1 ++ w2).
    rewrite E2, E1, T2, T1, app_assoc, join_app, append_assoc. split; reflexivity.
  - intros m a.
    destruct (step_settles buffer_size client m a)
      as [(_ & Ew & Eh & _)|(_ & _ & Ew & Eh & _)]; rewrite ?Ew, ?Eh.
    + exists []. rewrite Ew, Eh. now rewrite app_nil_r, append_nil_r.
    + exists [Py.str (id m)]. rewrite Ew, Eh, handle_text_write.
      split; [reflexivity|]. unfold join; simpl. now rewrite append_nil_r.
Qed.

Lemma initial_handle (d : disk) :
  written (trace (initial_state d)) = []
  /\ handle_text (record_fp (initial_state d)) = fp_file (open_append (record_file d)).
Proof. split; [reflexivity|]. unfold handle_text; simpl. apply append_nil_r. Qed.

Lemma loop_handle_initial (d : disk) (ms : list message) :
  let st := result_state (iterate buffer_size client ms (initial_state d)) in
  handle_text (record_fp st)
  = (fp_file (open_append (record_file d)) ++ join (written (trace st)))%string.
Proof.
  destruct (loop_handle ms (initial_state d)) as (ws & Ew & Et).
  destruct (initial_handle d) as [E0 T0]. simpl.
  rewrite Et, Ew, E0, T0. reflexivity.
Qed.

End Handle.

(** The end of [download_media]: after the loop, the handle is closed when
    the loop ended normally; the set, the snapshot, the counter, the texts
    written and the fetch calls are those of the loop. *)
Lemma download_media_loop (buffer_size : nat) (client : fetcher) (d : disk)
    (history : list message) (limit : option Z) :
  let l := iterate buffer_size client (iter_messages history limit) (initial_state d) in
  let r := download_media buffer_size client d history limit in
  downloaded_ids (result_state r) = downloaded_ids (result_state l)
  /\ existing_files (result_state r) = existing_files (result_state l)
  /\ count (result_state r) = count (result_state l)
  /\ written (trace (result_state r)) = written (trace (result_state l))
  /\ fetches (trace (result_state r)) = fetches (trace (result_state l))
  /\ (forall st, r = Returned st ->
        exists st', l = Returned st' /\ record_fp st = fp_close (record_fp st')).
Proof.
  unfold download_media.
  destruct (iterate buffer_size client (iter_messages history limit) (initial_state d))
    as [st'|e st']; simpl.
  - unfold finish, print, emit; simpl.
    rewrite !written_app, !fetches_app; simpl. rewrite !app_nil_r.
    repeat split. intros st [= <-]. exists st'. split; reflexivity.
  - repeat split. intros st [=].
Qed.

(** C5, as the claim states it, fails: after the first message of the
    scenario has been settled and its ID written, the engine proceeds to the
    next message with the ID still in the buffer of the handle. *)
Lemma write_not_flushed_per_message :
  ~ flushed_before_next_message DEFAULT_BUFFER_SIZE.
Proof.
  intros H.
  specialize (H fetch_by_id fresh [with_media 3]
                (result_state (iterate DEFAULT_BUFFER_SIZE fetch_by_id [with_media 3]
                                 (initial_state fresh)))).
  assert (E : fp_pending (record_fp (result_state
                (iterate DEFAULT_BUFFER_SIZE fetch_by_id [with_media 3]
                   (initial_state fresh)))) = "3"%string) by (vm_compute; reflexivity).
  rewrite H in E by (vm_compute; reflexivity). discriminate E.
Qed.

Lemma length_append (a b : string) :
  String.length (a ++ b) = (String.length a + String.length b)%nat.
Proof.
  induction a as [|c a IH]; [reflexivity|].
  change (String.length (String c (a ++ b)) = S (String.length a + String.length b)).
  cbn [String.length]. now rewrite IH.
Qed.

(** While the texts written in the run hold fewer characters than the
    buffer, the file is as it was and the buffer holds all of them. *)
Lemma loop_buffered (buffer_size : nat) (client : fetcher) (d : disk) (ms : list message) :
  let st := result_state (iterate buffer_size client ms (initial_state d)) in
  (String.length (join (written (trace st))) < buffer_size)%nat ->
  fp_file (record_fp st) = fp_file (open_append (record_file d))
  /\ fp_pending (record_fp st) = join (written (trace st)).
Proof.
  apply (loop_inv buffer_size client
    (fun s => (String.length (join (written (trace s))) < buffer_size)%nat ->
              fp_file (record_fp s) = fp_file (open_append (record_file d))
              /\ fp_pending (record_fp s) = join (written (trace s)))).
  - intros m s Hs.
    destruct (step_settles buffer_size client m s)
      as [(_ & Ew & Eh & _)|(_ & _ & Ew & Eh & _)]; rewrite Ew, Eh; [exact Hs|].
    rewrite join_app, length_append. unfold join at 2 4. cbn [fold_right].
    rewrite append_nil_r. intros Hlen.
    destruct Hs as [Hf Hp]; [lia|]. unfold fp_write. rewrite Hp.
    destruct (Nat.ltb_spec buffer_size
                (String.length (join (written (trace s)))
                 + String.length (Py.str (id m)))) as [Hlt|_]; [lia|].
    destruct (Nat.leb_spec buffer_size
                (String.length (join (written (trace s)) ++ Py.str (id m))))
      as [Hle|_]; [rewrite length_append in Hle; lia|].
    cbn [fp_file fp_pending]. split; [exact Hf | reflexivity].
  - intros _. split; reflexivity.
Qed.

(** C5, amended. The handle keeps every text written to it, in the order of
    the writes, in the file or in its buffer, and a write is followed by no
    flush: while the texts written in the run together hold fewer characters
    than the buffer, the file is as it was at the start of the run and all
    of them are in the buffer when the engine proceeds to the next message.
    When [download_media] returns, the handle is closed, its buffer is
    empty, and the file is the text it had when the run began followed by
    the texts written during the run. *)
Theorem ledger_complete_at_close (buffer_size : nat) (client : fetcher) (d : disk)
    (history : list message) (limit : option Z) :
  (forall ms,
     let st := result_state (iterate buffer_size client ms (initial_state d)) in
     handle_text (record_fp st)
     = (fp_file (open_append (record_file d)) ++ join (written (trace st)))%string)
  /\ (forall ms,
        let st := result_state (iterate buffer_size client ms (initial_state d)) in
        (String.length (join (written (trace st))) < buffer_size)%nat ->
        fp_file (record_fp st) = fp_file (open_append (record_file d))
        /\ fp_pending (record_fp st) = join (written (trace st)))
  /\ (forall st,
        download_media buffer_size client d history limit = Returned st ->
        fp_closed (record_fp st) = true
        /\ fp_pending (record_fp st) = EmptyString
        /\ fp_file (record_fp st)
           = (fp_file (open_append (record_file d)) ++ join (written (trace st)))%string).
Proof.
  split; [|split].
  - intros ms. apply loop_handle_initial.
  - intros ms. apply loop_buffered.
  - intros st Hr.
    destruct (download_media_loop buffer_size client d history limit)
      as (_ & _ & _ & Ew & _ & Hret).
    destruct (Hret st Hr) as (st' & Hl & Eh).
    rewrite Hr in Ew. simpl in Ew. rewrite Hl in Ew. simpl in Ew.
    rewrite Eh, Ew. simpl. repeat split.
    pose proof (loop_handle_initial buffer_size client d (iter_messages history limit)) as Ht.
    simpl in Ht. rewrite Hl in Ht. simpl in Ht. exact Ht.
Qed.

Lemma ledger_complete_at_close_witness :
  fp_file (record_fp (result_state
     (download_media DEFAULT_BUFFER_SIZE fetch_by_id fresh history None))) = "32"%string
  /\ fp_pending (record_fp (result_state
        (iterate DEFAULT_BUFFER_SIZE fetch_by_id history (initial_state fresh))))
     = "32"%string.
Proof.
  destruct (ledger_complete_at_close DEFAULT_BUFFER_SIZE fetch_by_id fresh history None)
    as (_ & Hbuf & H). split.
  - destruct (H (result_state
                   (download_media DEFAULT_BUFFER_SIZE fetch_by_id fresh history None)))
      as (_ & _ & E).
    + vm_compute. reflexivity.
    + rewrite E. vm_compute. reflexivity.
  - destruct (Hbuf history) as [_ E].
    + apply Nat.ltb_lt. vm_compute. reflexivity.
    + rewrite E. vm_compute. reflexivity.
Defined.

(** ** The set of settled IDs within a run *)

Section Settled.

Variable buffer_size : nat.
Variable client : fetcher.

(** No ID of the set [ids] has been written, and all of them are in the set
    of the state. *)
Lemma step_keeps_unwritten (ids : gset Z) (m : message) (st : state) :
  (forall n, n ∈ ids -> n ∈ downloaded_ids st /\ ~ In (Py.str n) (written (trace st))) ->
  forall n, n ∈ ids ->
    let st' := result_state (process_message buffer_size client m st) in
    n ∈ downloaded_ids st' /\ ~ In (Py.str n) (written (trace st')).
Proof.
  intros H n Hn. destruct (H n Hn) as [Hin Hw]. simpl.
  destruct (step_settles buffer_size client m st)
    as [(Ei & Ew & _)|(Hnot & Ei & Ew & _)]; rewrite Ei, Ew.
  - split; assumption.
  - split; [apply elem_of_add; tauto|].
    intros Hw'. apply in_app_or in Hw'. destruct Hw' as [Hw'|[E|[]]]; [tauto|].
    apply str_inj in E. subst n. contradiction.
Qed.

Lemma loop_keeps_unwritten (ids : gset Z) (ms : list message) (st : state) :
  (forall n, n ∈ ids -> n ∈ downloaded_ids st /\ ~ In (Py.str n) (written (trace st))) ->
  forall n, n ∈ ids ->
    let st' := result_state (iterate buffer_size client ms st) in
    n ∈ downloaded_ids st' /\ ~ In (Py.str n) (written (trace st')).
Proof.
  intros H.
  apply (loop_inv buffer_size client
           (fun s => forall n, n ∈ ids ->
              n ∈ downloaded_ids s /\ ~ In (Py.str n) (written (trace s)))).
  - intros m s Hs. apply step_keeps_unwritten, Hs.
  - exact H.
Qed.

(** C9. Within a run the in-memory set of settled IDs only grows: every
    message leaves it as it is or adds to it, so the set after a prefix of
    the messages is contained in the set after any longer prefix, and the
    IDs loaded from the ledger stay in it to the end. No ID is written to
    the ledger handle more than once, and an ID that was loaded from the
    ledger is not written at all. *)
Theorem ids_grow_and_written_once (d : disk) (history : list message) (limit : option Z) :
  (forall m st,
     downloaded_ids st ⊆ downloaded_ids (result_state (process_message buffer_size client m st)))
  /\ (forall ms1 ms2 st,
        downloaded_ids (result_state (iterate buffer_size client ms1 st))
        ⊆ downloaded_ids (result_state (iterate buffer_size client (ms1 ++ ms2) st)))
  /\ (let st := result_state (download_media buffer_size client d history limit) in
      load_ids (record_file d) ⊆ downloaded_ids st
      /\ List.NoDup (written (trace st))
      /\ (forall n, (count_occ string_dec (written (trace st)) (Py.str n) <= 1)%nat)
      /\ (forall n, n ∈ load_ids (record_file d) -> ~ In (Py.str n) (written (trace st)))).
Proof.
  split; [apply step_ids_mono|]. split.
  - intros ms1 ms2 st. rewrite loop_app.
    destruct (iterate buffer_size client ms1 st) as [st'|e st']; simpl.
    + apply loop_ids_mono.
    + intros n Hn. exact Hn.
  - destruct (download_media_loop buffer_size client d history limit)
      as (Ei & _ & _ & Ew & _). simpl. rewrite Ei, Ew.
    assert (Hnd : List.NoDup (written (trace (result_state
              (iterate buffer_size client (iter_messages history limit) (initial_state d)))))).
    { apply loop_writes_settled. split; simpl; [constructor | intros s []]. }
    split; [|split; [exact Hnd|split]].
    + apply (loop_ids_mono buffer_size client _ (initial_state d)).
    + intros n. now apply (proj1 (NoDup_count_occ string_dec _)).
    + intros n Hn.
      apply (loop_keeps_unwritten (load_ids (record_file d)) _ (initial_state d)); [|exact Hn].
      intros k Hk. split; [exact Hk | simpl; tauto].
Qed.

End Settled.

(** ** Calls of the Fetcher *)

Section Fetches.

Variable buffer_size : nat.
Variable client : fetcher.

Lemma count_occ_repeat (n k : Z) (j : nat) :
  count_occ Z.eq_dec (repeat k j) n = if Z.eq_dec k n then j else 0%nat.
Proof.
  induction j as [|j IH]; simpl.
  - destruct (Z.eq_dec k n); reflexivity.
  - rewrite IH. destruct (Z.eq_dec k n); reflexivity.
Qed.

Lemma step_covered (n : Z) (m : message) (st : state) :
  covered n st ->
  let st' := result_state (process_message buffer_size client m st) in
  covered n st'
  /\ count_occ Z.eq_dec (fetches (trace st')) n = count_occ Z.eq_dec (fetches (trace st)) n.
Proof.
  intros Hc. simpl. split.
  - destruct Hc as [Hc|Hc].
    + left. now apply step_ids_mono.
    + right. destruct (step_files buffer_size client m st) as (fs & -> & _).
      now apply file_exists_app.
  - destruct (step_fetches buffer_size client m st) as (k & _ & -> & Hk).
    rewrite count_occ_app, count_occ_repeat.
    destruct (Z.eq_dec (id m) n) as [<-|_]; [|lia].
    destruct k as [|k]; [lia|].
    destruct Hk as [Hnot Hf]; [discriminate|].
    destruct Hc as [Hc|Hc]; [contradiction | congruence].
Qed.

(** A covered ID is never fetched in the rest of the loop. *)
Lemma loop_covered (n : Z) (ms : list message) (st : state) :
  covered n st ->
  count_occ Z.eq_dec (fetches (trace (result_state (iterate buffer_size client ms st)))) n
  = count_occ Z.eq_dec (fetches (trace st)) n.
Proof.
  intros Hc.
  apply (loop_rel buffer_size client
           (fun a b => covered n a ->
              covered n b /\ count_occ Z.eq_dec (fetches (trace b)) n
                             = count_occ Z.eq_dec (fetches (trace a)) n)); auto.
  - intros a b c Hab Hbc Ha. destruct (Hab Ha) as [Hb E1].
    destruct (Hbc Hb) as [Hcc E2]. split; [exact Hcc | congruence].
  - intros m a Ha. now apply step_covered.
Qed.

(** The Fetcher is called at most twice for each occurrence of an ID in the
    sequence of messages. *)
Lemma loop_fetch_count (n : Z) (ms : list message) (st : state) :
  (count_occ Z.eq_dec (fetches (trace (result_state (iterate buffer_size client ms st)))) n
   <= count_occ Z.eq_dec (fetches (trace st)) n
      + 2 * count_occ Z.eq_dec (map id ms) n)%nat.
Proof.
  revert st. induction ms as [|m ms IH]; intros st; simpl; [lia|].
  destruct (step_fetches buffer_size client m st) as (k & Hk & E & _).
  assert (Hm : (count_occ Z.eq_dec (fetches (trace (result_state
                   (process_message buffer_size client m st)))) n
                <= count_occ Z.eq_dec (fetches (trace st)) n
                   + (if Z.eq_dec (id m) n then 2 else 0))%nat).
  { rewrite E, count_occ_app, count_occ_repeat. destruct (Z.eq_dec (id m) n); lia. }
  destruct (process_message buffer_size client m st) as [st'|e st']; simpl in *.
  - specialize (IH st'). destruct (Z.eq_dec (id m) n); lia.
  - destruct (Z.eq_dec (id m) n); lia.
Qed.

(** Within one run the Fetcher is called at most twice for a message, when
    the IDs of the sequence are distinct. *)
Lemma fetched_at_most_twice (d : disk) (history : list message) (limit : option Z) (n : Z) :
  List.NoDup (map id (iter_messages history limit)) ->
  (count_occ Z.eq_dec
     (fetches (trace (result_state (download_media buffer_size client d history limit)))) n
   <= 2)%nat.
Proof.
  intros Hnd.
  destruct (download_media_loop buffer_size client d history limit)
    as (_ & _ & _ & _ & -> & _).
  pose proof (loop_fetch_count n (iter_messages history limit) (initial_state d)) as H.
  pose proof (proj1 (NoDup_count_occ Z.eq_dec _) Hnd n) as H1.
  simpl in H. lia.
Qed.

(** A run whose loaded ledger holds an ID, or whose directory has a file for
    it, never calls the Fetcher for that ID. *)
Lemma loaded_never_fetched (d : disk) (history : list message) (limit : option Z) (n : Z) :
  n ∈ load_ids (record_file d) \/ file_exists n (listdir d) = true ->
  ~ In n (fetches (trace (result_state (download_media buffer_size client d history limit)))).
Proof.
  intros Hc.
  destruct (download_media_loop buffer_size client d history limit)
    as (_ & _ & _ & _ & -> & _).
  pose proof (loop_covered n (iter_messages history limit) (initial_state d) Hc) as H.
  simpl in H. intros Hin.
  apply (count_occ_In Z.eq_dec) in Hin. lia.
Qed.

End Fetches.

(** C7. Claim: within one run the Fetcher is called at most twice for a
    message, and never in a run that starts after the message was settled.
    On the code: the first run of the scenario settles the messages 3 and 2
    and leaves the ledger "32"; the next run loads the set {32}, finds
    neither ID in it, and calls the Fetcher for both messages again, when
    the artifacts carry the names Telethon gives them, and likewise when
    they are named after the ID and have been moved out of the directory. *)
Theorem settled_message_fetched_again :
  let r1 := download_media DEFAULT_BUFFER_SIZE fetch_by_date fresh history None in
  let r2 := second_run DEFAULT_BUFFER_SIZE fetch_by_date fetch_by_date fresh history None in
  let r2' := download_media DEFAULT_BUFFER_SIZE fetch_by_id artifacts_moved history None in
  (exists st, r1 = Returned st)
  /\ written (trace (result_state r1)) = ["3"; "2"]%string
  /\ 3 ∈ downloaded_ids (result_state r1)
  /\ 2 ∈ downloaded_ids (result_state r1)
  /\ fetches (trace (result_state r2)) = [3; 2]
  /\ record_file artifacts_moved = Some "32"%string
  /\ fetches (trace (result_state r2')) = [3; 2].
Proof.
  split; [eexists; vm_compute; reflexivity|].
  repeat split; try (vm_compute; reflexivity); compute_done.
Qed.

(** ** The Filesystem Probe *)

(** What the probe does for a message that the loop reaches: a message with
    media whose ID is not in the loaded ledger set and for which the
    directory snapshot has a file named as the ID or starting with the ID
    and a dot is settled without a call of the Fetcher: its ID is added to
    the set and written to the ledger handle, whose text gains the decimal
    text of the ID at its end, the counter and the snapshot stay as they
    are, and the Fetcher has not been called for this ID in the run. IDs are
    unique in the sequence of messages. *)
Lemma probe_settles_without_fetch (buffer_size : nat) (client : fetcher) (d : disk)
    (pre : list message) (m : message) (st : state) :
  media m = true ->
  id m ∉ load_ids (record_file d) ->
  file_exists (id m) (listdir d) = true ->
  ~ In (id m) (map id pre) ->
  iterate buffer_size client pre (initial_state d) = Returned st ->
  exists st',
    process_message buffer_size client m st = Returned st'
    /\ downloaded_ids st' = {[id m]} ∪ downloaded_ids st
    /\ written (trace st') = written (trace st) ++ [Py.str (id m)]
    /\ record_fp st' = fp_write buffer_size (record_fp st) (Py.str (id m))
    /\ count st' = count st
    /\ existing_files st' = existing_files st
    /\ fetches (trace st') = fetches (trace st)
    /\ ~ In (id m) (fetches (trace st'))
    /\ handle_text (record_fp st')
       = (handle_text (record_fp st) ++ Py.str (id m))%string.
Proof.
  intros Hm Hload Hprobe Hpre Hrun.
  assert (Hst : st = result_state (iterate buffer_size client pre (initial_state d)))
    by (rewrite Hrun; reflexivity).
  assert (Hid : id m ∉ downloaded_ids st).
  { intros Hin. rewrite Hst in Hin. apply loop_ids_bound in Hin.
    destruct Hin as [Hin|Hin]; [exact (Hload Hin) | exact (Hpre Hin)]. }
  assert (Hf : file_exists (id m) (existing_files st) = true).
  { destruct (loop_files buffer_size client pre (initial_state d)) as (fs & E).
    rewrite Hst, E. apply file_exists_app. exact Hprobe. }
  assert (Hno : ~ In (id m) (fetches (trace st))).
  { pose proof (loop_covered buffer_size client (id m) pre (initial_state d)
                  (or_intror Hprobe)) as Hc.
    rewrite <- Hst in Hc. simpl in Hc. intros Hin.
    apply (count_occ_In Z.eq_dec) in Hin. lia. }
  eexists. split.
  - unfold process_message. rewrite Hm, Hf. simpl.
    rewrite bool_decide_eq_false_2 by exact Hid. reflexivity.
  - unfold print. autorewrite with state.
    rewrite !written_app, !fetches_app; cbn [written fetches]. rewrite !app_nil_r.
    repeat split; [exact Hno | apply handle_text_write].
Qed.

Lemma probe_settles_without_fetch_witness :
  exists st',
    process_message DEFAULT_BUFFER_SIZE fetch_error (with_media 3) (initial_state artifact_only)
    = Returned st'
    /\ downloaded_ids st' = {[ 3 ]} ∪ ∅
    /\ written (trace st') = ["3"]%string
    /\ count st' = 0
    /\ fetches (trace st') = [].
Proof.
  destruct (probe_settles_without_fetch DEFAULT_BUFFER_SIZE fetch_error artifact_only
              [] (with_media 3) (initial_state artifact_only))
    as (st' & Hp & Hi & Hw & _ & Hc & _ & Hf & _).
  - reflexivity.
  - vm_compute. intros H. inversion H.
  - vm_compute. reflexivity.
  - simpl. tauto.
  - reflexivity.
  - exists st'. repeat split; assumption.
Defined.


(** ** The retry after a rate limit *)

(** C10. A message whose first fetch raises a rate-limit error and whose one
    retry returns a path leaves the engine in the state of a message whose
    first fetch returns that path: the same set, snapshot, handle and
    counter; the counter is one higher than before, the ID has joined the
    set and has been written once to the handle, and the snapshot has the
    base name of the path as its one new entry. *)
Theorem retry_success_same_state (buffer_size : nat) (limited direct : fetcher)
    (m : message) (st : state) (seconds : nat) (p : string) :
  media m = true ->
  id m ∉ downloaded_ids st ->
  file_exists (id m) (existing_files st) = false ->
  limited (fetch_calls st) m = Raise (FloodWaitError seconds) ->
  limited (S (fetch_calls st)) m = Path (Some p) ->
  direct (fetch_calls st) m = Path (Some p) ->
  exists st1 st2,
    process_message buffer_size limited m st = Returned st1
    /\ process_message buffer_size direct m st = Returned st2
    /\ downloaded_ids st1 = downloaded_ids st2
    /\ existing_files st1 = existing_files st2
    /\ record_fp st1 = record_fp st2
    /\ count st1 = count st2
    /\ count st1 = count st + 1
    /\ downloaded_ids st1 = {[id m]} ∪ downloaded_ids st
    /\ written (trace st1) = written (trace st) ++ [Py.str (id m)]
    /\ written (trace st2) = written (trace st) ++ [Py.str (id m)]
    /\ record_fp st1 = fp_write buffer_size (record_fp st) (Py.str (id m))
    /\ existing_files st1 = existing_files st ++ [Py.basename p].
Proof.
  intros Hm Hid Hf Hl1 Hl2 Hd.
  assert (Hcalls : fetch_calls (sleep seconds
            (print ("Rate limit reached, waiting " ++ Py.str (Z.of_nat seconds)
                    ++ " seconds...") (emit (EFetch (id m)) st))) = S (fetch_calls st)).
  { unfold fetch_calls, sleep, print, emit; simpl.
    rewrite !fetches_app; simpl. rewrite !app_nil_r, length_app; simpl. lia. }
  do 2 eexists. split; [|split].
  - unfold process_message, call_download. rewrite Hm, Hf. simpl.
    rewrite bool_decide_eq_false_2 by exact Hid. rewrite Hl1, Hcalls, Hl2. reflexivity.
  - unfold process_message, call_download. rewrite Hm, Hf. simpl.
    rewrite bool_decide_eq_false_2 by exact Hid. rewrite Hd. reflexivity.
  - unfold saved, saved_after_wait, print, sleep. autorewrite with state.
    rewrite !written_app; cbn [written]. rewrite !app_nil_r.
    repeat split.
Qed.

Lemma retry_success_same_state_witness :
  exists st1 st2,
    process_message DEFAULT_BUFFER_SIZE fetch_flood_once (with_media 3) (initial_state fresh)
    = Returned st1
    /\ process_message DEFAULT_BUFFER_SIZE fetch_by_id (with_media 3) (initial_state fresh)
       = Returned st2
    /\ downloaded_ids st1 = downloaded_ids st2
    /\ existing_files st1 = existing_files st2
    /\ record_fp st1 = record_fp st2
    /\ count st1 = count st2.
Proof.
  destruct (retry_success_same_state DEFAULT_BUFFER_SIZE fetch_flood_once fetch_by_id
              (with_media 3) (initial_state fresh) 2 "downloads/1001/3.jpg")
    as (st1 & st2 & H1 & H2 & Hi & Hf & Hh & Hc & _).
  - reflexivity.
  - vm_compute. intros H. inversion H.
  - vm_compute. reflexivity.
  - reflexivity.
  - reflexivity.
  - reflexivity.
  - exists st1, st2. repeat split; assumption.
Defined.

(** ** Loading the ledger *)

(** Evaluate the value of a literal digit. *)
Ltac digit_eval :=
  repeat match goal with
  | |- context [Py.digit_value ?c] =>
      let v := eval vm_compute in (Py.digit_value c) in
      change (Py.digit_value c) with v
  end.

Lemma uint_all_digits (d : Decimal.uint) :
  Py.all_digits (NilEmpty.string_of_uint d) = true.
Proof. induction d; simpl; auto. Qed.

Lemma int_digits_acc (d : Decimal.uint) (acc : positive) :
  Py.int_digits (Z.pos acc) (NilEmpty.string_of_uint d) = Z.pos (Pos.of_uint_acc d acc).
Proof.
  revert acc. induction d; intros acc; simpl; [reflexivity| ..];
    rewrite <- IHd; f_equal; digit_eval; lia.
Qed.

Lemma int_digits_uint (d : Decimal.uint) :
  Py.int_digits 0 (NilEmpty.string_of_uint d) = Z.of_N (Pos.of_uint d).
Proof.
  induction d; simpl; [reflexivity | exact IHd | ..];
    digit_eval; apply int_digits_acc.
Qed.

Lemma string_of_uint_nonnil (d : Decimal.uint) :
  d <> Decimal.Nil ->
  NilZero.string_of_uint d = NilEmpty.string_of_uint d
  /\ exists c s, NilEmpty.string_of_uint d = String c s.
Proof.
  destruct d; intros H; [contradiction| ..]; (split; [reflexivity | simpl; eauto]).
Qed.

(** The decimal text of a natural number is a number for [isdigit], and
    [int] reads it back. *)
Lemma str_digits (n : Z) :
  0 <= n ->
  exists c s, Py.str n = String c s
              /\ Py.all_digits (Py.str n) = true
              /\ Py.int (Py.str n) = n.
Proof.
  intros Hn. unfold Py.str, Py.int.
  pose proof (DecimalZ.of_to n) as Hof.
  destruct n as [|p|p]; [| |lia].
  - exists "0"%char, EmptyString. repeat split.
  - change (NilZero.string_of_int (Z.to_int (Z.pos p)))
      with (NilZero.string_of_uint (Pos.to_uint p)).
    change (Z.of_N (Pos.of_uint (Pos.to_uint p)) = Z.pos p) in Hof.
    destruct (string_of_uint_nonnil _ (DecimalPos.Unsigned.to_uint_nonnil p))
      as [-> (c & s & Hs)].
    exists c, s. split; [exact Hs|]. split; [apply uint_all_digits|].
    rewrite int_digits_uint. exact Hof.
Qed.

Lemma digit_not_space (c : ascii) : Py.isdigit_char c = true -> Py.isspace c = false.
Proof.
  unfold Py.isdigit_char, Py.isspace. intros H.
  apply andb_true_iff in H. destruct H as [H1 H2].
  apply Nat.leb_le in H1, H2.
  destruct (Nat.leb_spec 9 (nat_of_ascii c)), (Nat.leb_spec (nat_of_ascii c) 13),
    (Nat.leb_spec 28 (nat_of_ascii c)), (Nat.leb_spec (nat_of_ascii c) 32);
    simpl; try reflexivity; lia.
Qed.

Lemma digit_not_break (c : ascii) :
  Py.isdigit_char c = true -> Ascii.eqb c Py.LF = false /\ Ascii.eqb c Py.CR = false.
Proof.
  intros H. split; apply Ascii.eqb_neq; intros ->; discriminate H.
Qed.

Lemma rstrip_digits_line (s : string) :
  Py.all_digits s = true -> Py.rstrip (s ++ String Py.LF EmptyString) = s.
Proof.
  induction s as [|c s IH]; intros H; [reflexivity|].
  simpl in H. apply andb_true_iff in H. destruct H as [Hc Hs].
  change (Py.rstrip (String c (s ++ String Py.LF EmptyString)%string) = String c s).
  simpl. rewrite (IH Hs). destruct s; [|reflexivity].
  now rewrite (digit_not_space c Hc).
Qed.

(** Stripping a line that holds a number and its line break gives the number. *)
Lemma strip_digits_line (c : ascii) (s : string) :
  Py.all_digits (String c s) = true ->
  Py.strip (String c s ++ String Py.LF EmptyString) = String c s.
Proof.
  intros H. unfold Py.strip.
  assert (Hc : Py.isspace c = false).
  { simpl in H. apply andb_true_iff in H. apply digit_not_space, H. }
  change (String c s ++ String Py.LF EmptyString)%string
    with (String c (s ++ String Py.LF EmptyString)%string).
  simpl Py.lstrip. rewrite Hc.
  change (String c (s ++ String Py.LF EmptyString)%string)
    with (String c s ++ String Py.LF EmptyString)%string.
  now apply rstrip_digits_line.
Qed.

Lemma readlines_digits_line (cur s rest : string) :
  Py.all_digits s = true ->
  Py.readlines_from cur ((s ++ String Py.LF EmptyString) ++ rest)
  = ((cur ++ s) ++ String Py.LF EmptyString)%string :: Py.readlines_from EmptyString rest.
Proof.
  revert cur. induction s as [|c s IH]; intros cur H.
  - rewrite append_nil_r. reflexivity.
  - simpl in H. apply andb_true_iff in H. destruct H as [Hc Hs].
    destruct (digit_not_break c Hc) as [Hlf Hcr].
    change ((String c s ++ String Py.LF EmptyString) ++ rest)%string
      with (String c ((s ++ String Py.LF EmptyString) ++ rest)%string).
    simpl Py.readlines_from. rewrite Hlf, Hcr, (IH _ Hs).
    rewrite (append_assoc cur (String c EmptyString) s). reflexivity.
Qed.

(** A ledger with one natural number per line is read back line by line. *)
Lemma readlines_ledger_of (ids : list Z) :
  Forall (fun n => 0 <= n) ids ->
  Py.readlines (ledger_of ids)
  = map (fun n => (Py.str n ++ String Py.LF EmptyString)%string) ids.
Proof.
  unfold Py.readlines, ledger_of.
  induction 1 as [|n ids Hn _ IH]; [reflexivity|].
  destruct (str_digits n Hn) as (c & s & _ & Hd & _).
  change (join (map (fun n => (Py.str n ++ String Py.LF EmptyString)%string) (n :: ids)))
    with ((Py.str n ++ String Py.LF EmptyString)
          ++ join (map (fun n => (Py.str n ++ String Py.LF EmptyString)%string) ids))%string.
  rewrite (readlines_digits_line EmptyString _ _ Hd), IH. reflexivity.
Qed.

Lemma load_ids_elem (content : string) (n : Z) :
  n ∈ load_ids (Some content) <->
  exists line, In line (Py.readlines content)
               /\ Py.isdigit (Py.strip line) = true
               /\ n = Py.int (Py.strip line).
Proof.
  unfold load_ids. rewrite elem_of_list_to_set, list_elem_of_In, in_map_iff.
  split.
  - intros (line & E & Hin). apply filter_In in Hin. destruct Hin as [Hin Hd].
    exists line. auto.
  - intros (line & Hin & Hd & E). exists line. split; [auto|].
    apply filter_In. auto.
Qed.

(** The line of a natural number passes the filter of the loader and is
    read back as the number. *)
Lemma line_of_id (n : Z) :
  0 <= n ->
  Py.isdigit (Py.strip (Py.str n ++ String Py.LF EmptyString)) = true
  /\ Py.int (Py.strip (Py.str n ++ String Py.LF EmptyString)) = n.
Proof.
  intros Hn. destruct (str_digits n Hn) as (c & s & Es & Hd & Hi).
  rewrite Es in Hd, Hi |- *. rewrite (strip_digits_line c s Hd).
  split; [exact Hd | exact Hi].
Qed.

(** A ledger with one natural number per line, each ended by a line break,
    loads as the set of these numbers. *)
Lemma load_ledger_of (ids : list Z) :
  Forall (fun n => 0 <= n) ids ->
  load_ids (Some (ledger_of ids)) = list_to_set ids.
Proof.
  intros H. unfold load_ids. rewrite (readlines_ledger_of ids H). f_equal.
  induction H as [|n ids Hn _ IH]; [reflexivity|].
  destruct (line_of_id n Hn) as [Hd Hi].
  cbn [map List.filter]. rewrite Hd. cbn [map]. rewrite Hi, IH. reflexivity.
Qed.

(** When no digit line is longer than [int] converts, line 81 raises nothing
    and collects the numbers of the digit lines. *)
Lemma collect_ids_short (lines : list string) :
  (forall line, In line lines -> Py.isdigit (Py.strip line) = true ->
                (String.length (Py.strip line) <= INT_MAX_STR_DIGITS)%nat) ->
  collect_ids lines
  = Some (list_to_set
            (map (fun line => Py.int (Py.strip line))
                 (List.filter (fun line => Py.isdigit (Py.strip line)) lines))).
Proof.
  induction lines as [|line lines IH]; intros H; [reflexivity|].
  cbn [collect_ids List.filter].
  assert (Hrest : forall l, In l lines -> Py.isdigit (Py.strip l) = true ->
                            (String.length (Py.strip l) <= INT_MAX_STR_DIGITS)%nat)
    by (intros l Hl; apply H; right; exact Hl).
  destruct (Py.isdigit (Py.strip line)) eqn:Hd; [|exact (IH Hrest)].
  unfold int_checked.
  destruct (Nat.ltb_spec INT_MAX_STR_DIGITS (String.length (Py.strip line))) as [Hlong|_].
  - pose proof (H line (or_introl eq_refl) Hd). lia.
  - rewrite (IH Hrest). reflexivity.
Qed.

Lemma load_ids_empty_iff (content : string) :
  load_ids (Some content) = ∅
  <-> forall line, In line (Py.readlines content) -> Py.isdigit (Py.strip line) = false.
Proof.
  split.
  - intros He line Hin. destruct (Py.isdigit (Py.strip line)) eqn:Hd; [|reflexivity].
    exfalso. apply (not_elem_of_empty (C := gset Z) (Py.int (Py.strip line))).
    rewrite <- He. apply load_ids_elem. exists line. auto.
  - intros H. apply leibniz_equiv. apply elem_of_equiv_empty. intros n Hn.
    apply load_ids_elem in Hn. destruct Hn as (line & Hin & Hd & _).
    rewrite (H line Hin) in Hd. discriminate Hd.
Qed.

(** The lines of a ledger with one natural number per line hold the decimal
    texts of the numbers. *)
Lemma ledger_of_lines (ids : list Z) (line : string) :
  Forall (fun n => 0 <= n) ids ->
  In line (Py.readlines (ledger_of ids)) ->
  exists n, In n ids /\ Py.strip line = Py.str n.
Proof.
  intros H Hin. rewrite (readlines_ledger_of ids H) in Hin.
  apply in_map_iff in Hin. destruct Hin as (n & <- & Hn). exists n. split; [exact Hn|].
  assert (H0 : 0 <= n) by (rewrite List.Forall_forall in H; apply H; exact Hn).
  destruct (str_digits n H0) as (c & s & Es & Hd & _).
  rewrite Es in *. now apply strip_digits_line.
Qed.

(** C8, as the claim states it, fails, in both of its promises: a ledger
    file with one line of 4301 digits makes [int] raise, so the load fails
    the run; and a ledger file with a line that is no number is malformed,
    yet the load keeps the number of its other line. *)
Lemma ledger_load_fails_or_keeps_lines :
  ~ load_never_fails /\ ~ malformed_loads_empty.
Proof.
  split; intros H.
  - apply (H (Some Inputs.long_line)). vm_compute. reflexivity.
  - specialize (H ledger_with_junk eq_refl).
    apply (f_equal (fun o : option (gset Z) =>
                      match o with
                      | Some ids => bool_decide (12 ∈ ids)
                      | None => false
                      end)) in H.
    vm_compute in H. discriminate H.
Qed.

(** C8, amended. Without a ledger file the load yields the empty set and
    does not fail. For a ledger file of ASCII text in which no line of
    digits is longer than the 4300 digits that [int] converts, the load does
    not fail and yields exactly the numbers of the lines that, stripped of
    surrounding white space, consist of digits: the other lines are skipped
    one by one, so the loaded set is empty only when the file has no line of
    digits. A file with one natural number of at most 4300 digits per line,
    each ended by a line break, loads as the set of these numbers. *)
Theorem load_ledger_within_limits :
  load_ledger None = Some ∅
  /\ (forall content,
        is_ascii content = true ->
        digit_lines_short content ->
        load_ledger (Some content) = Some (load_ids (Some content))
        /\ (forall n,
              n ∈ load_ids (Some content) <->
              exists line, In line (Py.readlines content)
                           /\ Py.isdigit (Py.strip line) = true
                           /\ n = Py.int (Py.strip line))
        /\ (load_ids (Some content) = ∅ <->
            forall line, In line (Py.readlines content) ->
                         Py.isdigit (Py.strip line) = false))
  /\ (forall ids,
        Forall (fun n => 0 <= n
                         /\ (String.length (Py.str n) <= INT_MAX_STR_DIGITS)%nat) ids ->
        load_ledger (Some (ledger_of ids)) = Some (list_to_set ids)).
Proof.
  split; [reflexivity|]. split.
  - intros content _ Hshort. split; [|split].
    + unfold load_ledger, load_ids. apply collect_ids_short. exact Hshort.
    + intros n. apply load_ids_elem.
    + apply load_ids_empty_iff.
  - intros ids H.
    assert (H0 : Forall (fun n => 0 <= n) ids)
      by (eapply List.Forall_impl; [|exact H]; cbn; tauto).
    rewrite <- (load_ledger_of ids H0).
    unfold load_ledger, load_ids. apply collect_ids_short.
    intros line Hin _. destruct (ledger_of_lines ids line H0 Hin) as (n & Hn & ->).
    rewrite List.Forall_forall in H. apply (H n Hn).
Qed.

Lemma load_ledger_within_limits_witness :
  load_ledger (Some ledger_with_junk) = Some (load_ids (Some ledger_with_junk))
  /\ load_ledger (Some (ledger_of [12; 7])) = Some ({[ 12 ]} ∪ ({[ 7 ]} ∪ ∅)).
Proof.
  destruct load_ledger_within_limits as (_ & Hload & Hlines). split.
  - apply (Hload ledger_with_junk).
    + reflexivity.
    + intros line Hin Hd. apply Nat.leb_le. revert Hd.
      vm_compute in Hin. destruct Hin as [<-|[<-|[]]]; vm_compute; congruence.
  - apply (Hlines [12; 7]).
    apply List.Forall_cons; [|apply List.Forall_cons; [|apply List.Forall_nil]];
      (split; [lia | apply Nat.leb_le; vm_compute; reflexivity]).
Defined.

(** * Further properties of the engine *)

Section Engine_more.

Variable buffer_size : nat.
Variable client : fetcher.

Abbreviation step' := (process_message buffer_size client).
Abbreviation loop' := (iterate buffer_size client).
Abbreviation run' := (download_media buffer_size client).

(** Case analysis along the branches of the loop body, keeping the answers
    of the Fetcher as equations. *)
Ltac branches m st :=
  unfold process_message, call_download;
  destruct (media m) eqn:Hmedia; simpl;
  [ destruct (bool_decide_reflect (id m ∈ downloaded_ids st)) as [Hin|Hin]; simpl;
    [ | destruct (file_exists (id m) (existing_files st)) eqn:Hprobe; simpl;
        [ | destruct (client (fetch_calls st) m) as [[p|]|[secs|text|name]] eqn:Hfirst;
            simpl;
            [ | | match goal with
                  | |- context [client ?n m] =>
                      destruct (client n m) as [[p|]|e] eqn:Hretry; simpl
                  end | | ] ] ]
  | ].

Ltac fields :=
  cbn [result_state]; unfold saved, saved_after_wait, print, sleep;
  autorewrite with state;
  rewrite ?written_app, ?fetches_app, ?printed_app, ?length_app;
  cbn [written fetches printed List.length]; rewrite ?app_nil_r.

Lemma fp_write_closed (h : handle) (s : string) :
  fp_closed (fp_write buffer_size h s) = fp_closed h.
Proof.
  unfold fp_write.
  destruct (buffer_size <? String.length (fp_pending h) + String.length s)%nat;
    match goal with |- context [(?a <=? ?b)%nat] => destruct (a <=? b)%nat end;
    reflexivity.
Qed.

(** A message without media changes nothing, not even the trace. *)
Lemma step_without_media (m : message) (st : state) :
  media m = false -> step' m st = Returned st.
Proof. intros H. unfold process_message. rewrite H. reflexivity. Qed.


(** The trace is only extended, never by a close, and the handle stays as
    open or closed as it was. *)
Lemma step_trace (m : message) (st : state) :
  exists evs, trace (result_state (step' m st)) = trace st ++ evs
              /\ ~ In EClose evs
              /\ fp_closed (record_fp (result_state (step' m st))) = fp_closed (record_fp st).
Proof.
  branches m st; fields; rewrite ?fp_write_closed; rewrite <- ?app_assoc;
    try (exists []; rewrite app_nil_r; repeat split; intros []);
    (eexists; split; [reflexivity|]; split; [|reflexivity]);
    cbn [app]; intros H; repeat (destruct H as [H|H]; [discriminate H|]); exact H.
Qed.

(** The counter moves by 0 or 1; when it moves, one text is written and at
    least one fetch call is made; the snapshot gains at most as many names as
    the counter moves. *)
Lemma step_counts (m : message) (st : state) :
  let st' := result_state (step' m st) in
  count st <= count st'
  /\ count st' - count st
     <= Z.of_nat (List.length (written (trace st'))) - Z.of_nat (List.length (written (trace st)))
  /\ count st' - count st
     <= Z.of_nat (List.length (fetches (trace st'))) - Z.of_nat (List.length (fetches (trace st)))
  /\ Z.of_nat (List.length (existing_files st')) - Z.of_nat (List.length (existing_files st))
     <= count st' - count st.
Proof.
  branches m st; fields; repeat split; lia.
Qed.

End Engine_more.

Section Engine_runs.

Variable buffer_size : nat.
Variable client : fetcher.

Abbreviation step2 := (process_message buffer_size client).
Abbreviation loop2 := (iterate buffer_size client).
Abbreviation run2 := (download_media buffer_size client).

(** X1. Messages without media leave no mark on a run: the loop over a
    sequence of messages is the loop over its messages with media, and a
    run without limit is the run over the history with the messages without
    media taken out. *)
Theorem messages_without_media_ignored :
  (forall ms st, loop2 ms st = loop2 (List.filter media ms) st)
  /\ (forall d history,
        run2 d history None = run2 d (List.filter media history) None).
Proof.
  assert (H : forall ms st, loop2 ms st = loop2 (List.filter media ms) st).
  { induction ms as [|m ms IH]; intros st; [reflexivity|].
    cbn [List.filter iterate]. destruct (media m) eqn:Hm.
    - cbn [iterate]. destruct (step2 m st); [apply IH | reflexivity].
    - rewrite (step_without_media buffer_size client m st Hm). apply IH. }
  split; [exact H|].
  intros d history. unfold download_media, iter_messages. now rewrite <- H.
Qed.

(** The loop only extends the trace, never with a close, and leaves the
    handle as open or closed as it was. *)
Lemma loop_trace (ms : list message) (st : state) :
  exists evs, trace (result_state (loop2 ms st)) = trace st ++ evs
              /\ ~ In EClose evs
              /\ fp_closed (record_fp (result_state (loop2 ms st))) = fp_closed (record_fp st).
Proof.
  apply (loop_rel buffer_size client
           (fun a b => exists evs, trace b = trace a ++ evs /\ ~ In EClose evs
                                   /\ fp_closed (record_fp b) = fp_closed (record_fp a))).
  - intros a. exists []. rewrite app_nil_r. repeat split. intros [].
  - intros a b c (e1 & T1 & N1 & C1) (e2 & T2 & N2 & C2). exists (e1 ++ e2).
    rewrite T2, T1, C2, C1, app_assoc. repeat split.
    intros H. apply in_app_or in H. tauto.
  - intros m a. apply step_trace.
Qed.

(** X3. The ledger handle is closed exactly when the run returns normally:
    then it was closed once, right before the summary line; a run that
    raises leaves the handle open and has never closed it. *)
Theorem handle_closed_iff_returned (d : disk) (history : list message)
    (limit : option Z) :
  let r := run2 d history limit in
  (fp_closed (record_fp (result_state r)) = true <-> exists st, r = Returned st)
  /\ (forall st, r = Returned st ->
        exists evs, trace st
                    = evs ++ [EClose;
                              EPrint ("Done. Total new files downloaded: "
                                      ++ Py.str (count st))%string]
                    /\ ~ In EClose evs)
  /\ (forall e st, r = Raised e st -> ~ In EClose (trace st)).
Proof.
  destruct (loop_trace (iter_messages history limit) (initial_state d))
    as (evs & Ht & Hno & Hc).
  unfold download_media.
  destruct (loop2 (iter_messages history limit) (initial_state d)) as [st'|e st'];
    cbn [result_state] in *.
  - split; [split; [eauto | intros _; reflexivity]|]. split.
    + intros st [= <-]. exists (trace st'). split.
      * unfold finish, print. autorewrite with state. cbn [count].
        now rewrite <- app_assoc.
      * rewrite Ht. intros H. apply in_app_or in H. destruct H as [H|H]; [|tauto].
        cbn in H. destruct H as [H|[]]. discriminate H.
    + intros e st [=].
  - split; [split|].
    + rewrite Hc. cbn. discriminate.
    + intros [st [=]].
    + split; [intros st [=]|]. intros e' st [= _ <-]. rewrite Ht.
      intros H. apply in_app_or in H. destruct H as [H|H]; [|tauto].
      cbn in H. destruct H as [H|[]]. discriminate H.
Qed.



End Engine_runs.

Section Engine_counts.

Variable buffer_size : nat.
Variable client : fetcher.

Abbreviation step3 := (process_message buffer_size client).
Abbreviation loop3 := (iterate buffer_size client).
Abbreviation run3 := (download_media buffer_size client).




(** X6. The reported count is never negative and never exceeds the number of
    IDs written to the ledger in the run nor the number of fetch calls, and
    the snapshot gains at most as many names as the count. *)
Theorem count_bounds (d : disk) (history : list message) (limit : option Z) :
  let st := result_state (run3 d history limit) in
  0 <= count st
  /\ count st <= Z.of_nat (List.length (written (trace st)))
  /\ count st <= Z.of_nat (List.length (fetches (trace st)))
  /\ Z.of_nat (List.length (existing_files st))
     <= Z.of_nat (List.length (listdir d)) + count st.
Proof.
  destruct (download_media_loop buffer_size client d history limit)
    as (_ & Hf & Hc & Hw & Hfe & _). cbn zeta. rewrite Hf, Hc, Hw, Hfe.
  pose proof (loop_rel buffer_size client
    (fun a b =>
       count a <= count b
       /\ count b - count a
          <= Z.of_nat (List.length (written (trace b)))
             - Z.of_nat (List.length (written (trace a)))
       /\ count b - count a
          <= Z.of_nat (List.length (fetches (trace b)))
             - Z.of_nat (List.length (fetches (trace a)))
       /\ Z.of_nat (List.length (existing_files b))
          - Z.of_nat (List.length (existing_files a))
          <= count b - count a)) as Hrel.
  destruct (Hrel ltac:(cbv beta; intros; lia) ltac:(cbv beta; intros; lia)
              (step_counts buffer_size client)
              (iter_messages history limit) (initial_state d)) as (H1 & H2 & H3 & H4).
  cbn [initial_state print emit count trace existing_files written fetches app
       List.length] in H1, H2, H3, H4.
  repeat split; lia.
Qed.

(** X7. At the end of a run the in-memory set is exactly the loaded set plus
    the IDs written to the ledger during the run; and every ID written is
    the ID of a scanned message and was not in the loaded set. *)
Theorem ids_are_loaded_or_written (d : disk) (history : list message) (limit : option Z) :
  let st := result_state (run3 d history limit) in
  (forall n, n ∈ downloaded_ids st
             <-> n ∈ load_ids (record_file d) \/ In (Py.str n) (written (trace st)))
  /\ (forall n, In (Py.str n) (written (trace st)) ->
        (n ∉ load_ids (record_file d))
        /\ exists m, In m (iter_messages history limit) /\ id m = n).
Proof.
  destruct (download_media_loop buffer_size client d history limit)
    as (Hi & _ & _ & Hw & _). cbn zeta. rewrite Hi, Hw.
  assert (Hiff : forall n,
    n ∈ downloaded_ids (result_state (loop3 (iter_messages history limit) (initial_state d)))
    <-> n ∈ load_ids (record_file d)
        \/ In (Py.str n) (written (trace (result_state
              (loop3 (iter_messages history limit) (initial_state d)))))).
  { apply (loop_inv buffer_size client
      (fun s => forall n, n ∈ downloaded_ids s
                          <-> n ∈ load_ids (record_file d)
                              \/ In (Py.str n) (written (trace s)))).
    - intros m s Hs n.
      destruct (step_settles buffer_size client m s)
        as [(Ei & Ew & _)|(_ & Ei & Ew & _)]; rewrite Ei, Ew; [apply Hs|].
      rewrite elem_of_add, in_app_iff, Hs. cbn [In]. split.
      + intros [->|[H|H]]; auto.
      + intros [H|[H|[H|[]]]]; auto. left. symmetry. now apply str_inj.
    - intros n. cbn. tauto. }
  split; [exact Hiff|].
  intros n Hn.
  assert (Hnot : n ∉ load_ids (record_file d)).
  { intros Hl.
    exact (proj2 (loop_keeps_unwritten buffer_size client (load_ids (record_file d))
                    (iter_messages history limit) (initial_state d)
                    (fun k Hk => conj Hk (fun F => F)) n Hl) Hn). }
  split; [exact Hnot|].
  assert (Hin : n ∈ downloaded_ids (result_state
                  (loop3 (iter_messages history limit) (initial_state d))))
    by (apply Hiff; right; exact Hn).
  apply loop_ids_bound in Hin. destruct Hin as [Hin|Hin]; [contradiction|].
  apply in_map_iff in Hin. destruct Hin as (m & E & Hm). exists m. auto.
Qed.

(** The loop over a longer sequence extends what the loop over a prefix
    has done. *)
Lemma loop_extends (ms1 ms2 : list message) (st : state) :
  let a := result_state (loop3 ms1 st) in
  let b := result_state (loop3 (ms1 ++ ms2) st) in
  (exists evs, trace b = trace a ++ evs)
  /\ downloaded_ids a ⊆ downloaded_ids b
  /\ count a <= count b.
Proof.
  cbn zeta. rewrite loop_app.
  destruct (loop3 ms1 st) as [st1|e st1]; cbn [result_state].
  - destruct (loop_trace buffer_size client ms2 st1) as (evs & Ht & _).
    split; [eauto|]. split; [apply loop_ids_mono|].
    apply (loop_rel buffer_size client (fun a b => count a <= count b)).
    + intros; lia.
    + intros; lia.
    + intros m s. apply (step_counts buffer_size client m s).
  - split; [exists []; now rewrite app_nil_r|]. split; [intros n Hn; exact Hn | lia].
Qed.

(** X8. A limit makes the run scan a prefix of the history: what a limited
    run writes and fetches is an initial part of what the run without limit
    writes and fetches, its set is contained in the other's and its count
    is not larger. A limit of 0 or less scans nothing, and a limit of at
    least the length of the history is no limit. *)
Theorem limit_scans_prefix (d : disk) (history : list message) (n : Z) :
  let a := result_state (run3 d history (Some n)) in
  let b := result_state (run3 d history None) in
  (exists ws, written (trace b) = written (trace a) ++ ws)
  /\ (exists fs, fetches (trace b) = fetches (trace a) ++ fs)
  /\ downloaded_ids a ⊆ downloaded_ids b
  /\ count a <= count b
  /\ (n <= 0 -> run3 d history (Some n) = run3 d [] None)
  /\ (Z.of_nat (List.length history) <= n ->
      run3 d history (Some n) = run3 d history None).
Proof.
  destruct (download_media_loop buffer_size client d history (Some n))
    as (Hi & _ & Hc & Hw & Hf & _).
  destruct (download_media_loop buffer_size client d history None)
    as (Hi' & _ & Hc' & Hw' & Hf' & _).
  cbn zeta. rewrite Hi, Hc, Hw, Hf, Hi', Hc', Hw', Hf'.
  cbn [iter_messages].
  destruct (loop_extends (firstn (Z.to_nat n) history) (skipn (Z.to_nat n) history)
              (initial_state d)) as ((evs & Ht) & Hsub & Hle).
  rewrite firstn_skipn in *.
  split; [exists (written evs); now rewrite Ht, written_app|].
  split; [exists (fetches evs); now rewrite Ht, fetches_app|].
  split; [exact Hsub|]. split; [exact Hle|]. split.
  - intros Hn. unfold download_media, iter_messages.
    replace (Z.to_nat n) with 0%nat by lia. reflexivity.
  - intros Hn. unfold download_media, iter_messages.
    rewrite firstn_all2 by lia. reflexivity.
Qed.

End Engine_counts.

(** Examples of X4 and X5. *)



(** ** The probe and the names of the files *)

Lemma append_cons (c : ascii) (a b : string) :
  (String c a ++ b)%string = String c (a ++ b)%string.
Proof. reflexivity. Qed.

Lemma occurs_app (c : ascii) (a b : string) :
  occurs c (a ++ b) = occurs c a || occurs c b.
Proof.
  induction a as [|x a IH]; [reflexivity|].
  rewrite append_cons. cbn [occurs]. rewrite IH. apply orb_assoc.
Qed.

Lemma all_digits_occurs (c : ascii) (s : string) :
  Py.isdigit_char c = false -> Py.all_digits s = true -> occurs c s = false.
Proof.
  intros Hc. induction s as [|x s IH]; [reflexivity|]. cbn [Py.all_digits occurs].
  intros H. apply andb_true_iff in H. destruct H as [Hx Hs]. rewrite (IH Hs).
  destruct (Ascii.eqb_spec x c) as [->|_]; [congruence | reflexivity].
Qed.

(** The decimal text of an integer is not empty and holds only digits and,
    in front of a negative number, the sign. *)
Lemma str_chars (n : Z) :
  (exists c s, Py.str n = String c s)
  /\ forall c, Py.isdigit_char c = false -> c <> "-"%char -> occurs c (Py.str n) = false.
Proof.
  unfold Py.str. destruct n as [|p|p].
  - split; [exists "0"%char, EmptyString; reflexivity|].
    intros c Hc _. apply all_digits_occurs; [exact Hc | reflexivity].
  - change (NilZero.string_of_int (Z.to_int (Z.pos p)))
      with (NilZero.string_of_uint (Pos.to_uint p)).
    destruct (string_of_uint_nonnil _ (DecimalPos.Unsigned.to_uint_nonnil p))
      as [-> Hs]. split; [exact Hs|].
    intros c Hc _. apply all_digits_occurs; [exact Hc | apply uint_all_digits].
  - change (NilZero.string_of_int (Z.to_int (Z.neg p)))
      with (String "-" (NilZero.string_of_uint (Pos.to_uint p))).
    destruct (string_of_uint_nonnil _ (DecimalPos.Unsigned.to_uint_nonnil p))
      as [-> _]. split; [eauto|].
    intros c Hc Hm. cbn [occurs].
    rewrite (all_digits_occurs c _ Hc (uint_all_digits _)).
    destruct (Ascii.eqb_spec "-"%char c) as [E|_]; [congruence | reflexivity].
Qed.

Lemma str_no_dot (n : Z) : occurs "."%char (Py.str n) = false.
Proof. apply str_chars; [reflexivity | discriminate]. Qed.

Lemma prefix_occurs (c : ascii) (p s : string) :
  String.prefix p s = true -> occurs c p = true -> occurs c s = true.
Proof.
  revert s. induction p as [|x p IH]; intros s Hp Hc; [discriminate Hc|].
  destruct s as [|y s]; [discriminate Hp|]. cbn [String.prefix] in Hp.
  destruct (ascii_dec x y) as [->|_]; [|discriminate Hp].
  cbn [occurs] in *. destruct (Ascii.eqb y c); [reflexivity|].
  cbn [orb] in *. now apply IH.
Qed.

Lemma prefix_app_same (a b c : string) :
  String.prefix (a ++ b) (a ++ c) = String.prefix b c.
Proof.
  induction a as [|x a IH]; [reflexivity|].
  rewrite !append_cons. cbn [String.prefix].
  destruct (ascii_dec x x) as [_|N]; [exact IH | contradiction].
Qed.

(** Two texts without a dot, each followed by a dot: if the one is a prefix
    of the other they are equal. *)
Lemma prefix_dot_inj (a b x y : string) :
  occurs "."%char a = false -> occurs "."%char b = false ->
  String.prefix (a ++ String "." x) (b ++ String "." y) = true -> a = b.
Proof.
  revert b. induction a as [|c a IH]; intros b Ha Hb Hp.
  - destruct b as [|d b]; [reflexivity|].
    rewrite append_cons in Hp. cbn [String.append String.prefix] in Hp.
    change (EmptyString ++ String "." x)%string with (String "." x) in Hp.
    cbn [String.prefix] in Hp.
    destruct (ascii_dec "." d) as [<-|_]; [discriminate Hb | discriminate Hp].
  - destruct b as [|d b].
    + rewrite append_cons in Hp.
      change (EmptyString ++ String "." y)%string with (String "." y) in Hp.
      cbn [String.prefix] in Hp.
      destruct (ascii_dec c ".") as [->|_]; [discriminate Ha | discriminate Hp].
    + rewrite !append_cons in Hp. cbn [String.prefix] in Hp.
      destruct (ascii_dec c d) as [->|_]; [|discriminate Hp].
      cbn [occurs] in Ha, Hb. apply orb_false_iff in Ha, Hb.
      f_equal. apply IH; tauto.
Qed.

(** X9. The probe tells the IDs apart: a file named "<id>.<ext>" or "<id>"
    is recognised as the artifact of that ID and of no other ID, and the
    ledger file, which the directory listing contains, is no artifact of any
    ID. *)
Theorem probe_recognises_own_id (n n' : Z) (ext : string) :
  (file_exists n [(Py.str n' ++ String "." ext)%string] = true <-> n = n')
  /\ (file_exists n [Py.str n'] = true <-> n = n')
  /\ file_exists n [RECORD_NAME] = false.
Proof.
  unfold file_exists, Py.startswith. cbn [existsb]. rewrite !orb_false_r.
  pose proof (str_no_dot n) as Hn. pose proof (str_no_dot n') as Hn'.
  split; [|split].
  - split.
    + intros H. apply orb_true_iff in H. destruct H as [H|H].
      * apply str_inj. exact (prefix_dot_inj _ _ _ _ Hn Hn' H).
      * apply String.eqb_eq in H. rewrite <- H, occurs_app in Hn.
        apply orb_false_iff in Hn. destruct Hn as [_ Hn]. discriminate Hn.
    + intros ->. rewrite prefix_app_same. cbn [String.prefix].
      destruct (ascii_dec "." ".") as [_|N]; [|contradiction].
      destruct ext; reflexivity.
  - split.
    + intros H. apply orb_true_iff in H. destruct H as [H|H].
      * apply (prefix_occurs "."%char) in H.
        -- congruence.
        -- rewrite occurs_app. apply orb_true_iff. right. reflexivity.
      * apply String.eqb_eq in H. now apply str_inj.
    + intros ->. rewrite String.eqb_refl. apply orb_true_r.
  - apply orb_false_iff. split.
    + destruct (proj1 (str_chars n)) as (c & s & E). rewrite E in *.
      rewrite append_cons. unfold RECORD_NAME. cbn [String.prefix].
      destruct (ascii_dec c ".") as [->|_]; [discriminate Hn | reflexivity].
    + apply String.eqb_neq. intros E. rewrite <- E in Hn. discriminate Hn.
Qed.

(** ** Numbers in the ledger *)

Lemma int_digits_nonneg (s : string) (acc : Z) :
  Py.all_digits s = true -> 0 <= acc -> 0 <= Py.int_digits acc s.
Proof.
  revert acc. induction s as [|c s IH]; intros acc H Hacc; [exact Hacc|].
  cbn [Py.all_digits Py.int_digits] in *.
  apply andb_true_iff in H. destruct H as [Hc Hs]. apply (IH _ Hs).
  unfold Py.isdigit_char in Hc. apply andb_true_iff in Hc. destruct Hc as [Hc _].
  apply Nat.leb_le in Hc. unfold Py.digit_value. lia.
Qed.

(** X10. Only natural numbers are loaded from the ledger: the loaded set has
    no negative ID, whatever the file holds; a line with a sign is skipped. *)
Theorem loaded_ids_nonnegative (f : option string) (n : Z) :
  n ∈ load_ids f -> 0 <= n.
Proof.
  destruct f as [content|]; [|intros H; exfalso; revert H; apply not_elem_of_empty].
  intros H. apply load_ids_elem in H. destruct H as (line & _ & Hd & ->).
  apply int_digits_nonneg; [|lia].
  unfold Py.isdigit in Hd. destruct (Py.strip line); [discriminate Hd | exact Hd].
Qed.

Lemma loaded_ids_nonnegative_witness : 0 <= 12.
Proof.
  apply (loaded_ids_nonnegative (Some ledger_with_junk) 12). compute_done.
Defined.

(** * The interactive selection *)

(** [choices.index(choice)] is the first position that holds [choice]. *)
Lemma index_spec (c : string) (l : list string) (i : nat) :
  index c l = Some i
  <-> nth_error l i = Some c /\ forall j, (j < i)%nat -> nth_error l j <> Some c.
Proof.
  revert i. induction l as [|x l IH]; intros i; cbn [index].
  - split; [discriminate|]. intros [H _]. destruct i; discriminate H.
  - destruct (String.eqb_spec x c) as [->|Hne].
    + split.
      * intros [= <-]. split; [reflexivity | intros j Hj; lia].
      * intros [_ Hmin]. destruct i as [|i]; [reflexivity|].
        exfalso. apply (Hmin 0%nat); [lia | reflexivity].
    + split.
      * destruct (index c l) as [k|] eqn:Ek; [|discriminate]. intros [= <-].
        destruct (proj1 (IH k) eq_refl) as [Hk Hmin]. split; [exact Hk|].
        intros [|j] Hj; cbn [nth_error]; [congruence|]. apply Hmin. lia.
      * intros [Hi Hmin]. destruct i as [|i]; cbn [nth_error] in Hi; [congruence|].
        rewrite (proj2 (IH i)); [reflexivity|]. split; [exact Hi|].
        intros j Hj. apply (Hmin (S j)). lia.
Qed.

Lemma index_none (c : string) (l : list string) : index c l = None <-> ~ In c l.
Proof.
  induction l as [|x l IH]; cbn [index In]; [tauto|].
  destruct (String.eqb_spec x c) as [->|Hne].
  - split; [discriminate | tauto].
  - destruct (index c l) as [k|].
    + split; [discriminate|]. intros H.
      assert (Hk : Some k = None) by (apply IH; tauto). discriminate Hk.
    + split; [|reflexivity]. intros _ [H|H]; [exact (Hne H)|].
      exact (proj1 IH eq_refl H).
Qed.

(** The selection returns the first dialog whose label is the answer. *)
Lemma choose_first_match (dialogs : list entity) (c : string) (e : entity) :
  choose_dialog_sync dialogs (Some c) = Selected e
  <-> exists i, nth_error dialogs i = Some e /\ label e = c
                /\ forall j e', (j < i)%nat -> nth_error dialogs j = Some e' -> label e' <> c.
Proof.
  unfold choose_dialog_sync. split.
  - destruct (index c (map label dialogs)) as [i|] eqn:Ei; [|discriminate].
    apply index_spec in Ei. destruct Ei as [Hi Hmin].
    rewrite nth_error_map in Hi.
    destruct (nth_error dialogs i) as [e0|] eqn:E0; [|discriminate].
    intros [= <-]. exists i. injection Hi as Hi. repeat split; [exact E0 | exact Hi|].
    intros j e' Hj Hj' Hl. apply (Hmin j Hj). rewrite nth_error_map, Hj'. cbn. congruence.
  - intros (i & Hi & Hl & Hmin).
    assert (Ei : index c (map label dialogs) = Some i).
    { apply index_spec. split.
      - rewrite nth_error_map, Hi. cbn. congruence.
      - intros j Hj. rewrite nth_error_map.
        destruct (nth_error dialogs j) as [e'|] eqn:Ej; [|discriminate].
        cbn. intros [= Hc]. exact (Hmin j e' Hj Ej Hc). }
    rewrite Ei, Hi. reflexivity.
Qed.

(** X11. The interactive selection returns the first dialog whose label
    equals the answer of the menu: an entity is returned exactly when it is
    at the first position with that label; an answer that is no label of a
    dialog raises the [ValueError] of [list.index]; no answer returns
    [None]. *)
Theorem selection_is_first_match (dialogs : list entity) (c : string) :
  (forall e,
     choose_dialog_sync dialogs (Some c) = Selected e
     <-> exists i, nth_error dialogs i = Some e /\ label e = c
                   /\ forall j e', (j < i)%nat -> nth_error dialogs j = Some e' ->
                                   label e' <> c)
  /\ (choose_dialog_sync dialogs (Some c) = ValueError <-> ~ In c (map label dialogs))
  /\ choose_dialog_sync dialogs None = Cancelled.
Proof.
  split; [intros e; apply choose_first_match|]. split; [|reflexivity].
  unfold choose_dialog_sync. rewrite <- index_none.
  destruct (index c (map label dialogs)) as [i|] eqn:Ei; [|tauto].
  apply index_spec in Ei. destruct Ei as [Hi _]. rewrite nth_error_map in Hi.
  destruct (nth_error dialogs i); [|discriminate Hi].
  split; discriminate.
Qed.

Lemma append_single_inj (s t : string) (c : ascii) :
  (s ++ String c EmptyString)%string = (t ++ String c EmptyString)%string -> s = t.
Proof.
  revert t. induction s as [|x s IH]; intros [|y t] H.
  - reflexivity.
  - rewrite append_cons in H.
    change (String c EmptyString = String y (t ++ String c EmptyString)%string) in H.
    injection H as _ H. destruct t; discriminate H.
  - rewrite append_cons in H.
    change (String x (s ++ String c EmptyString)%string = String c EmptyString) in H.
    injection H as _ H. destruct s; discriminate H.
  - rewrite !append_cons in H. injection H as -> H. f_equal. now apply IH.
Qed.

(** A label ends with its ID: two labels that are equal carry texts of the
    same ID, whatever the names before them. *)
Lemma label_tail_inj (a b s t : string) :
  occurs "("%char s = false -> occurs "("%char t = false ->
  (a ++ String " " (String "(" (s ++ ")")))%string
  = (b ++ String " " (String "(" (t ++ ")")))%string ->
  s = t.
Proof.
  assert (Hclash : forall u v w : string,
            occurs "("%char u = false ->
            (u ++ ")")%string = (v ++ String " " (String "(" w))%string -> False).
  { intros u v w Hu E.
    assert (H : occurs "("%char (u ++ ")") = false)
      by (rewrite occurs_app, Hu; reflexivity).
    rewrite E, occurs_app in H. apply orb_false_iff in H. destruct H as [_ H].
    discriminate H. }
  revert b. induction a as [|x a IH]; intros [|y b] Hs Ht H.
  - change (String " " (String "(" (s ++ ")")%string)
            = String " " (String "(" (t ++ ")")%string)) in H.
    injection H as H. now apply append_single_inj in H.
  - rewrite append_cons in H.
    change (String " " (String "(" (s ++ ")")%string)
            = String y (b ++ String " " (String "(" (t ++ ")")))%string) in H.
    injection H as _ H. destruct b as [|z b].
    + change (String "(" (s ++ ")")%string = String " " (String "(" (t ++ ")")%string)) in H.
      discriminate H.
    + rewrite append_cons in H. injection H as _ H.
      exfalso. exact (Hclash _ _ _ Hs H).
  - rewrite append_cons in H.
    change (String x (a ++ String " " (String "(" (s ++ ")")))%string
            = String " " (String "(" (t ++ ")")%string)) in H.
    injection H as _ H. destruct a as [|z a].
    + change (String " " (String "(" (s ++ ")")%string) = String "(" (t ++ ")")%string) in H.
      discriminate H.
    + rewrite append_cons in H. injection H as _ H.
      exfalso. symmetry in H. exact (Hclash _ _ _ Ht H).
  - rewrite !append_cons in H. injection H as _ H. now apply (IH b).
Qed.

Lemma label_id_inj (e1 e2 : entity) : label e1 = label e2 -> entity_id e1 = entity_id e2.
Proof.
  unfold label. intros H. apply str_inj.
  apply (label_tail_inj (show_value (display_name e1)) (show_value (display_name e2)));
    [apply str_chars; [reflexivity | discriminate] ..| exact H].
Qed.

(** With distinct entity IDs the selection returns the picked dialog. *)
Lemma choose_picked (dialogs : list entity) (k : nat) (e : entity) :
  List.NoDup (map entity_id dialogs) ->
  nth_error dialogs k = Some e ->
  choose_dialog_sync dialogs (Some (label e)) = Selected e.
Proof.
  intros Hnd Hk. unfold choose_dialog_sync.
  destruct (index (label e) (map label dialogs)) as [i|] eqn:Ei.
  - apply index_spec in Ei. destruct Ei as [Hi _]. rewrite nth_error_map in Hi.
    destruct (nth_error dialogs i) as [e0|] eqn:E0; [|discriminate Hi].
    injection Hi as Hi. apply label_id_inj in Hi.
    assert (Hik : i = k).
    { apply (proj1 (NoDup_nth_error _) Hnd).
      - rewrite length_map. apply nth_error_Some. congruence.
      - rewrite !nth_error_map, E0, Hk. cbn. congruence. }
    subst i. congruence.
  - exfalso. apply index_none in Ei. apply Ei. apply in_map.
    eapply nth_error_In. exact Hk.
Qed.

(** X12. When the dialogs have pairwise distinct entity IDs, picking an
    entry of the menu returns the entity of exactly that dialog, whatever
    the names are: the label ends with the ID, so equal labels mean equal
    IDs. *)
Theorem selection_returns_picked_dialog (dialogs : list entity) (k : nat) (e e' : entity) :
  (label e = label e' -> entity_id e = entity_id e')
  /\ (List.NoDup (map entity_id dialogs) ->
      nth_error dialogs k = Some e ->
      choose_dialog_sync dialogs (Some (label e)) = Selected e).
Proof.
  split; [apply label_id_inj | apply choose_picked].
Qed.

Lemma selection_returns_picked_dialog_witness :
  choose_dialog_sync [Inputs.channel_a; Inputs.user_b] (Some "Ann (20)"%string)
  = Selected Inputs.user_b.
Proof.
  apply (proj2 (selection_returns_picked_dialog [Inputs.channel_a; Inputs.user_b] 1
                  Inputs.user_b Inputs.user_b)).
  - repeat constructor; cbn; intuition discriminate.
  - reflexivity.
Defined.

(** * The command line and [main] *)

(** X13. With --list-chats the script never uses --channel: it stops when
    the menu is cancelled, and with dialogs of distinct IDs it starts [main]
    on the picked entity, whatever --channel holds. Without --list-chats no
    selection takes place: a missing or empty --channel is a usage error,
    and otherwise [main] starts on a channel name that is not empty. *)
Theorem dispatch_target (a : arguments) (dialogs : list entity) (answer : option string) :
  (arg_list_chats a = true ->
     (forall name limit, dispatch a dialogs answer <> Start (ByName name) limit)
     /\ dispatch a dialogs answer <> UsageError
     /\ dispatch a dialogs None = OperationCancelled
     /\ (forall k e, List.NoDup (map entity_id dialogs) ->
                     nth_error dialogs k = Some e ->
                     dispatch a dialogs (Some (label e)) = Start (ByEntity e) (arg_limit a)))
  /\ (arg_list_chats a = false ->
        dispatch a dialogs answer = dispatch a [] None
        /\ (no_channel a = true -> dispatch a dialogs answer = UsageError)
        /\ (forall t limit, dispatch a dialogs answer = Start t limit ->
              exists c s, t = ByName (Some (String c s)) /\ limit = arg_limit a)).
Proof.
  unfold dispatch. split; intros Hl; rewrite Hl; rewrite ?andb_false_r, ?andb_true_r;
    cbn [negb].
  - repeat split.
    + intros name limit. destruct (choose_dialog_sync dialogs answer); discriminate.
    + destruct (choose_dialog_sync dialogs answer); discriminate.
    + intros k e Hnd Hk. rewrite (choose_picked dialogs k e Hnd Hk). reflexivity.
  - repeat split.
    + intros ->. reflexivity.
    + intros t limit. unfold no_channel.
      destruct (arg_channel a) as [[|c s]|]; try discriminate.
      intros [= <- <-]. eauto.
Qed.

Lemma dispatch_target_witness :
  dispatch {| arg_channel := Some "news"%string; arg_list_chats := true; arg_limit := None |}
           [Inputs.channel_a; Inputs.user_b] (Some "Ann (20)"%string)
  = Start (ByEntity Inputs.user_b) None.
Proof.
  destruct (dispatch_target
              {| arg_channel := Some "news"%string; arg_list_chats := true; arg_limit := None |}
              [Inputs.channel_a; Inputs.user_b] (Some "Ann (20)"%string)) as [H _].
  destruct (H eq_refl) as (_ & _ & _ & Hpick).
  apply (Hpick 1%nat Inputs.user_b).
  - repeat constructor; cbn; intuition discriminate.
  - reflexivity.
Defined.

(** X14. [main] disconnects the client exactly when the run has closed the
    ledger handle: after a run that returns both have happened, after a run
    that raises neither has, since the exception leaves [main] before the
    disconnect and no branch of the loop closes the handle. *)
Theorem main_disconnects_iff_handle_closed (buffer_size : nat) (client : fetcher)
    (me : entity) (d : disk) (history : list message) (limit : option Z) :
  In Disconnected (fst (main buffer_size client me d history limit))
  <-> fp_closed (record_fp (result_state
        (download_media buffer_size client d history limit))) = true.
Proof.
  unfold main.
  pose proof (loop_trace buffer_size client (iter_messages history limit) (initial_state d))
    as (evs & _ & _ & Hclosed).
  unfold download_media in *.
  destruct (iterate buffer_size client (iter_messages history limit) (initial_state d))
    as [st'|e st']; cbn [result_state fst] in *.
  - split; [reflexivity|]. intros _. cbn. tauto.
  - rewrite Hclosed. cbn. split; [|discriminate].
    intros [H|[H|[H|[]]]]; discriminate H.
Qed.

(** * What a run leaves for each message *)

Section Engine_outcomes.

Variable buffer_size : nat.
Variable client : fetcher.

Abbreviation step4 := (process_message buffer_size client).
Abbreviation loop4 := (iterate buffer_size client).
Abbreviation run4 := (download_media buffer_size client).

(** A message with media that does not raise is in the set afterwards, or
    an error line has been printed for it. *)
Lemma step_settled_or_logged (m : message) (st st' : state) :
  step4 m st = Returned st' ->
  media m = true ->
  id m ∈ downloaded_ids st'
  \/ exists text,
       In ("Error downloading message " ++ Py.str (id m) ++ ": " ++ text)%string
          (printed (trace st')).
Proof.
  unfold process_message, call_download. intros H Hm. rewrite Hm in H. cbn [negb] in H.
  destruct (bool_decide_reflect (id m ∈ downloaded_ids st)) as [Hin|Hin].
  { injection H as <-. left. unfold print. autorewrite with state. exact Hin. }
  destruct (file_exists (id m) (existing_files st)).
  { injection H as <-. left. unfold print. autorewrite with state.
    apply elem_of_add. tauto. }
  destruct (client (fetch_calls st) m) as [[p|]|[secs|text|name]].
  - injection H as <-. left. unfold saved, print. autorewrite with state.
    apply elem_of_add. tauto.
  - injection H as <-. left. unfold saved, print. autorewrite with state.
    apply elem_of_add. tauto.
  - match type of H with
    | context [client ?n m] => destruct (client n m) as [[p|]|e]
    end; try discriminate H.
    injection H as <-. left. unfold saved_after_wait, print, sleep.
    autorewrite with state. apply elem_of_add. tauto.
  - injection H as <-. right. exists text. unfold print. autorewrite with state.
    rewrite !printed_app. cbn [printed]. apply in_or_app. right. left. reflexivity.
  - discriminate H.
Qed.

Lemma loop_settled_or_logged (ms : list message) (st st' : state) :
  loop4 ms st = Returned st' ->
  forall m, In m ms -> media m = true ->
    id m ∈ downloaded_ids st'
    \/ exists text,
         In ("Error downloading message " ++ Py.str (id m) ++ ": " ++ text)%string
            (printed (trace st')).
Proof.
  revert st. induction ms as [|m0 ms IH]; intros st Hl m Hin Hm; [destruct Hin|].
  cbn [iterate] in Hl. destruct (step4 m0 st) as [st1|e st1] eqn:Hs; [|discriminate Hl].
  destruct Hin as [<-|Hin]; [|exact (IH st1 Hl m Hin Hm)].
  assert (E : st' = result_state (loop4 ms st1)) by (rewrite Hl; reflexivity).
  destruct (step_settled_or_logged m0 st st1 Hs Hm) as [H|[text H]].
  - left. rewrite E. apply loop_ids_mono. exact H.
  - right. exists text.
    destruct (loop_trace buffer_size client ms st1) as (evs & Ht & _).
    rewrite E, Ht, printed_app. apply in_or_app. left. exact H.
Qed.

(** X15. When a run returns normally, every scanned message with media has
    been dealt with: its ID is in the final set, or an "Error downloading
    message <id>" line has been printed for it. *)
Theorem returned_run_settles_or_logs (d : disk) (history : list message)
    (limit : option Z) (st : state) :
  run4 d history limit = Returned st ->
  forall m, In m (iter_messages history limit) -> media m = true ->
    id m ∈ downloaded_ids st
    \/ exists text,
         In ("Error downloading message " ++ Py.str (id m) ++ ": " ++ text)%string
            (printed (trace st)).
Proof.
  unfold download_media. intros H m Hin Hm.
  destruct (loop4 (iter_messages history limit) (initial_state d)) as [st'|e st'] eqn:Hl;
    [|discriminate H].
  injection H as <-.
  destruct (loop_settled_or_logged _ _ _ Hl m Hin Hm) as [Hs|[text Hs]].
  - left. unfold finish, print. autorewrite with state. exact Hs.
  - right. exists text. unfold finish, print. autorewrite with state.
    cbn [trace]. rewrite !printed_app. apply in_or_app. left.
    apply in_or_app. left. exact Hs.
Qed.

(** X16. In a run the Fetcher is called for an ID at most twice for each
    message of the scanned sequence that carries the ID, so never for an ID
    that no scanned message carries; and it is never called for an ID that
    the loaded ledger holds or for which the directory has a file when the
    run starts. *)
Theorem fetch_calls_per_id (d : disk) (history : list message) (limit : option Z) (n : Z) :
  let calls := fetches (trace (result_state (run4 d history limit))) in
  (count_occ Z.eq_dec calls n
   <= 2 * count_occ Z.eq_dec (map id (iter_messages history limit)) n)%nat
  /\ (~ In n (map id (iter_messages history limit)) -> ~ In n calls)
  /\ (n ∈ load_ids (record_file d) \/ file_exists n (listdir d) = true -> ~ In n calls).
Proof.
  destruct (download_media_loop buffer_size client d history limit)
    as (_ & _ & _ & _ & Hf & _). cbn zeta. rewrite Hf.
  pose proof (loop_fetch_count buffer_size client n (iter_messages history limit)
                (initial_state d)) as Hc.
  cbn [initial_state print emit trace fetches app count_occ] in Hc.
  split; [lia|]. split.
  - intros Hno Hin. apply (count_occ_In Z.eq_dec) in Hin.
    apply (count_occ_not_In Z.eq_dec) in Hno. lia.
  - intros Hcov Hin. apply (count_occ_In Z.eq_dec) in Hin.
    pose proof (loop_covered buffer_size client n (iter_messages history limit)
                  (initial_state d) Hcov) as Hz.
    cbn [initial_state print emit trace fetches app count_occ] in Hz. lia.
Qed.

End Engine_outcomes.

Lemma returned_run_settles_or_logs_witness :
  3 ∈ downloaded_ids (result_state
        (download_media DEFAULT_BUFFER_SIZE fetch_error fresh history None))
  \/ exists text,
       In ("Error downloading message " ++ Py.str 3 ++ ": " ++ text)%string
          (printed (trace (result_state
             (download_media DEFAULT_BUFFER_SIZE fetch_error fresh history None)))).
Proof.
  apply (returned_run_settles_or_logs DEFAULT_BUFFER_SIZE fetch_error fresh history None
           (result_state (download_media DEFAULT_BUFFER_SIZE fetch_error fresh history None))
           eq_refl (with_media 3)).
  - left. reflexivity.
  - reflexivity.
Defined.
